(** * Kepler estimator: the request handler, the model cache and the framing loop

    A shallow embedding of [src/kepler_model/estimate/estimator.py]:
    [handle_request] (lines 46-108) with the process-wide [loaded_model]
    dictionary, and [EstimatorServer.accepted] (lines 131-141).

    Python values are modelled as follows.
    - [str] is a Rocq [string] holding the UTF-8 encoding of the text, [bytes]
      is a Rocq [string] read as a sequence of octets.  [bytes.decode()]
      checks that the octets are well-formed UTF-8, indexing a [str] yields a
      whole code point.
    - [loaded_model], a dict of dicts, is a [gmap] of [gmap]s.
    - A Python exception leaving a function is the [Raised] outcome; state
      changes made before the exception are kept, as in Python.
    - The fields of a [PowerRequest] have the types of the wire format:
      [output_type] is a string, [source] and [trainer_name] are a string or
      null.
    - The collaborators that are imported from modules outside this file
      (JSON decoding, the output-type enumeration, the artifact locator, the
      two resolvers, the loader, [os.path.exists], [shutil.rmtree]) are the
      fields of the class [Collaborators], so that every property holds for
      all of their implementations; every call that reaches the file system
      through them is recorded as an [Event].  Logging is left out.

    The file has the definitions first (the embedding of [handle_request] and
    [accepted], the module [Demo] with a concrete environment, then the
    embedding of [start], [clean_socket], [sig_handler], [run] and
    [PowerRequest.__init__]), then the properties, each group followed by its
    applications in the concrete environment. *)

From Stdlib Require Import ZArith NArith Ascii String List Bool Lia.
From stdpp Require Import base option list strings gmap pretty.

Abbreviation str := string (only parsing).
Abbreviation bytes := string (only parsing).

(** ** Strings *)

Module Str.

(** [s.startswith(p)] *)
Fixpoint startswith (p s : str) : bool :=
  match p, s with
  | EmptyString, _ => true
  | String a p', String b s' => if decide (a = b) then startswith p' s' else false
  | String _ _, EmptyString => false
  end.

(** [sub in s], the substring test of Python *)
Fixpoint contains (sub s : str) : bool :=
  startswith sub s ||
  match s with
  | EmptyString => false
  | String _ s' => contains sub s'
  end.

(** The declarative reading of [sub in s]. *)
Definition occurs_in (sub s : str) : Prop :=
  ∃ pre post, s = pre +:+ sub +:+ post.

End Str.

(** ** Byte strings *)

Module Bytes.

(** The ASCII whitespace that [bytes.strip()] removes: space, and the
    characters 9 to 13 (tab, line feed, vertical tab, form feed, return). *)
Definition is_space (c : ascii) : bool :=
  let n := N_of_ascii c in
  (n =? 32)%N || ((9 <=? n)%N && (n <=? 13)%N).

Fixpoint lstrip (s : bytes) : bytes :=
  match s with
  | EmptyString => EmptyString
  | String c s' => if is_space c then lstrip s' else s
  end.

Definition reverse (s : bytes) : bytes :=
  string_of_list_ascii (rev (list_ascii_of_string s)).

Definition rstrip (s : bytes) : bytes := reverse (lstrip (reverse s)).

Definition strip (s : bytes) : bytes := rstrip (lstrip s).

Definition between (lo hi n : N) : bool := ((lo <=? n) && (n <=? hi))%N.

(** A continuation octet, 10xxxxxx. *)
Definition continuation (n : N) : bool := between 128 191 n.

(** Well-formed UTF-8 (no overlong forms, no surrogates, nothing above
    U+10FFFF), the sequences that the strict decoder of Python accepts. *)
Fixpoint utf8_valid (l : list N) : bool :=
  match l with
  | [] => true
  | b0 :: l1 =>
    if (b0 <=? 127)%N then utf8_valid l1 else
    match l1 with
    | [] => false
    | b1 :: l2 =>
      if between 194 223 b0 then continuation b1 && utf8_valid l2 else
      match l2 with
      | [] => false
      | b2 :: l3 =>
        if between 224 239 b0 then
          (if (b0 =? 224)%N then between 160 191 b1
           else if (b0 =? 237)%N then between 128 159 b1
           else continuation b1)
          && continuation b2 && utf8_valid l3
        else
        match l3 with
        | [] => false
        | b3 :: l4 =>
          if between 240 244 b0 then
            (if (b0 =? 240)%N then between 144 191 b1
             else if (b0 =? 244)%N then between 128 143 b1
             else continuation b1)
            && continuation b2 && continuation b3 && utf8_valid l4
          else false
        end
      end
    end
  end.

(** [b.decode()]: [None] stands for [UnicodeDecodeError]. *)
Definition decode (b : bytes) : option str :=
  if utf8_valid (map N_of_ascii (list_ascii_of_string b)) then Some b else None.

(** [s.encode()] *)
Definition encode (s : str) : bytes := s.

(** The octets of the last code point, read from the reversed text: the
    continuation octets and the lead octet before them. *)
Fixpoint last_code_point (reversed acc : list ascii) : list ascii :=
  match reversed with
  | [] => acc
  | c :: r =>
      if continuation (N_of_ascii c) then last_code_point r (c :: acc) else c :: acc
  end.

(** [s[-1]]: [None] stands for [IndexError]. *)
Definition index_last (s : str) : option str :=
  match s with
  | EmptyString => None
  | String _ _ =>
      Some (string_of_list_ascii (last_code_point (rev (list_ascii_of_string s)) []))
  end.

(** The last octet of a byte string. *)
Fixpoint last_byte (s : bytes) : option ascii :=
  match s with
  | EmptyString => None
  | String c EmptyString => Some c
  | String _ s' => last_byte s'
  end.

(** The octet 0x7D, the closing brace. *)
Definition closing_brace : ascii := ascii_of_nat 125.

(** The buffer [data] once the chunks have been stripped and appended to it
    in turn. *)
Definition accumulate (data : bytes) (chunks : list bytes) : bytes :=
  fold_left (λ d c, d +:+ strip c) chunks data.

(** A chunk that lines 134-136 get through: something is left of it after
    [strip], and that decodes. *)
Definition well_formed_chunk (c : bytes) : Prop :=
  strip c ≠ "" ∧ is_Some (decode (strip c)).

End Bytes.

(** ** Exceptions, outcomes and events *)

(** The exceptions that can leave the two functions. *)
Inductive exn :=
| AttributeError
| KeyError (key : str)
| IndexError
| UnicodeDecodeError.

Inductive outcome (A : Type) :=
| Returned (a : A)
| Raised (e : exn).
Arguments Returned {A} a.
Arguments Raised {A} e.

(** One record per call that reaches the file system. *)
Inductive Event :=
| PathExists (path : str) (found : bool)
| Rmtree (path : str)
| MakeRequest (result : option str)
| GetArchivedModel (result : option str)
| LoadDownloadedModel (energy_source output_type : str) (usable : bool).

#[global] Instance Event_eq_dec : EqDecision Event.
Proof. solve_decision. Defined.

Declare Scope py_scope.
Delimit Scope py_scope with py.

Section Estimator.

Context {DataFrame Value Estimator FS : Type}.

(** ** Data model *)

(** [class PowerRequest] (lines 25-36).  [datapoint] is the frame built by
    pandas from [values], [metrics] and the broadcast system features. *)
Record PowerRequest := mkPowerRequest {
  trainer_name : option str;
  metrics : list str;
  filter_ : str;
  output_type : str;
  energy_source : option str;
  system_features : list str;
  datapoint : DataFrame }.

(** The object returned by [load_downloaded_model]: the attributes and the
    method that [handle_request] uses. *)
Record Model := mkModel {
  model_name : str;
  model_trainer_name : str;
  estimator : option Estimator;
  get_power : DataFrame → gmap str Value * str }.

(** The dict [{"powers": ..., "msg": ...}]. *)
Record Response := mkResponse {
  powers : gmap str Value;
  msg : str }.

(** What [json.loads] does at line 48, with the object hook that builds a
    [PowerRequest] from the keys of each JSON object:
    it raises (malformed text, or the hook's constructor rejects the keys or
    the frame), or the text is an object and the hook's [PowerRequest] is
    returned, or the text is another JSON value (array, string, number,
    literal), which is returned as a plain Python value. *)
Inductive Loads :=
| LoadsRaised (e : str)
| LoadsRequest (power_request : PowerRequest)
| LoadsPlainValue.

(** The imported collaborators. [ModelOutputType] lists the names of the
    members of the enumeration; [get_download_output_path] has the constant
    [download_path] built in. *)
Class Collaborators := {
  json_loads : str → Loads;
  is_output_type_supported : str → bool;
  ModelOutputType : list str;
  is_model_server_enabled : bool;
  get_download_output_path : str → str → str;
  path_exists : FS → str → bool;
  rmtree : FS → str → FS;
  make_request : FS → PowerRequest → FS * option str;
  get_achived_model : FS → PowerRequest → FS * option str;
  load_downloaded_model : FS → str → str → option Model;
  json_dumps : Response → str }.

Context {collab : Collaborators}.

(** The process state: the module-level dict [loaded_model] and the disk. *)
Record State := mkState {
  loaded_model : gmap str (gmap str Model);
  fs : FS }.

(** ** The monad: state, exceptions, and a log of file-system calls *)

Definition M (A : Type) : Type := State → outcome A * State * list Event.

Definition ret {A} (a : A) : M A := λ st, (Returned a, st, []).

Definition raise {A} (e : exn) : M A := λ st, (Raised e, st, []).

Definition bind {A B} (m : M A) (k : A → M B) : M B := λ st,
  match m st with
  | (Returned a, st1, ev1) =>
      let '(r, st2, ev2) := k a st1 in (r, st2, ev1 ++ ev2)
  | (Raised e, st1, ev1) => (Raised e, st1, ev1)
  end.

Notation "x <- m ;; k" := (bind m (λ x, k))
  (at level 100, m at next level, right associativity) : py_scope.
Notation "m ;;; k" := (bind m (λ _, k))
  (at level 100, right associativity) : py_scope.
Open Scope py_scope.

Definition get_loaded_model : M (gmap str (gmap str Model)) :=
  λ st, (Returned (loaded_model st), st, []).

Definition set_loaded_model (lm : gmap str (gmap str Model)) : M unit :=
  λ st, (Returned (), mkState lm (fs st), []).

(** [d[k]] *)
Definition getitem {A} (d : gmap str A) (k : str) : M A :=
  match d !! k with
  | Some a => ret a
  | None => raise (KeyError k)
  end.

Definition os_path_exists (path : str) : M bool := λ st,
  let found := path_exists (fs st) path in
  (Returned found, st, [PathExists path found]).

Definition shutil_rmtree (path : str) : M unit := λ st,
  (Returned (), mkState (loaded_model st) (rmtree (fs st) path), [Rmtree path]).

Definition call_make_request (power_request : PowerRequest) : M (option str) := λ st,
  let '(fs', r) := make_request (fs st) power_request in
  (Returned r, mkState (loaded_model st) fs', [MakeRequest r]).

Definition call_get_achived_model (power_request : PowerRequest) : M (option str) := λ st,
  let '(fs', r) := get_achived_model (fs st) power_request in
  (Returned r, mkState (loaded_model st) fs', [GetArchivedModel r]).

(** [loaded_item is not None and loaded_item.estimator is not None] *)
Definition usable (loaded_item : option Model) : bool :=
  match loaded_item with
  | Some m => bool_decide (is_Some (estimator m))
  | None => false
  end.

Definition call_load_downloaded_model (es ot : str) : M (option Model) := λ st,
  let loaded_item := load_downloaded_model (fs st) es ot in
  (Returned loaded_item, st, [LoadDownloadedModel es ot (usable loaded_item)]).

(** ** [handle_request] *)

Definition error_response (m : str) : Response := mkResponse ∅ m.

(** [ModelOutputType[name]]; the member is represented by its [name]. *)
Definition ModelOutputType_getitem (name : str) : M str :=
  if bool_decide (name ∈ ModelOutputType) then ret name else raise (KeyError name).

(** Lines 61-62. *)
Definition normalize_energy_source (source : option str) : str :=
  match source with
  | None => "rapl-sysfs"
  | Some s => if Str.contains "rapl" s then "rapl-sysfs" else s
  end.

Definition set_energy_source (r : PowerRequest) (es : str) : PowerRequest :=
  mkPowerRequest (trainer_name r) (metrics r) (filter_ r) (output_type r)
    (Some es) (system_features r) (datapoint r).

(** Lines 64-65. *)
Definition init_output_type (ot : str) : M unit :=
  lm <- get_loaded_model ;;
  if bool_decide (is_Some (lm !! ot)) then ret ()
  else set_loaded_model (<[ot := ∅]> lm).

(** The entry for a key pair, if both levels have it. *)
Definition cache_entry (lm : gmap str (gmap str Model)) (ot es : str) : option Model :=
  lm !! ot ≫= (.!! es).

(** Lines 68-75: the flag [mismatch_trainer]. *)
Definition mismatch_trainer (power_request : PowerRequest) (ot es : str)
    (lm : gmap str (gmap str Model)) : bool :=
  if is_model_server_enabled then
    match trainer_name power_request with
    | Some t =>
        if bool_decide (t ≠ "") then
          match cache_entry lm ot es with
          | Some current => bool_decide (model_trainer_name current ≠ t)
          | None => false
          end
        else false
    | None => false
    end
  else false.

(** Lines 81-93: where the artifact comes from. [inl] is the early return of
    line 90. *)
Definition obtain_path (data : str) (power_request : PowerRequest) (output_path : str)
    : M (Response + str) :=
  found <- os_path_exists output_path ;;
  if negb found then
    r <- call_make_request power_request ;;
    match r with
    | Some p => ret (inr p)
    | None =>
        r <- call_get_achived_model power_request ;;
        match r with
        | Some p => ret (inr p)
        | None => ret (inl (error_response ("failed to get model from request " +:+ data)))
        end
    end
  else ret (inr output_path).

(** Lines 95-99: load, and install the item only when it is usable. *)
Definition load_and_install (ot es : str) : M unit :=
  loaded_item <- call_load_downloaded_model es ot ;;
  match loaded_item with
  | Some item =>
      if bool_decide (is_Some (estimator item)) then
        lm <- get_loaded_model ;;
        inner <- getitem lm ot ;;
        set_loaded_model (<[ot := <[es := item]> inner]> lm)
      else ret ()
  | None => ret ()
  end.

(** Lines 77-99: the body of the [if] of line 76. *)
Definition resolve (data : str) (power_request : PowerRequest) (ot es : str)
    (mismatch : bool) : M (Response + str) :=
  let output_path := get_download_output_path es ot in
  (if mismatch then
     found <- os_path_exists output_path ;;
     if (found : bool) then shutil_rmtree output_path else ret ()
   else ret ()) ;;;
  r <- obtain_path data power_request output_path ;;
  match r with
  | inl response => ret (inl response)
  | inr output_path => load_and_install ot es ;;; ret (inr output_path)
  end.

(** Lines 101-108: predict with the cached model; on a failure message the
    artifact at [output_path] is removed when [output_path] was set. *)
Definition predict (power_request : PowerRequest) (ot es output_path : str) : M Response :=
  lm <- get_loaded_model ;;
  inner <- getitem lm ot ;;
  model <- getitem inner es ;;
  let '(powers, msg) := get_power model (datapoint power_request) in
  (if bool_decide (msg ≠ "") then
     if bool_decide (output_path ≠ "") then
       found <- os_path_exists output_path ;;
       if (found : bool) then shutil_rmtree output_path else ret ()
     else ret ()
   else ret ()) ;;;
  ret (mkResponse powers msg).

(** Lines 59-108, once the request is parsed and its output type accepted. *)
Definition serve (data : str) (power_request : PowerRequest) : M Response :=
  ot <- ModelOutputType_getitem (output_type power_request) ;;
  let es := normalize_energy_source (energy_source power_request) in
  let power_request := set_energy_source power_request es in
  init_output_type ot ;;;
  lm <- get_loaded_model ;;
  let mismatch := mismatch_trainer power_request ot es lm in
  inner <- getitem lm ot ;;
  r <- (if negb (bool_decide (is_Some (inner !! es))) || mismatch
        then resolve data power_request ot es mismatch
        else ret (inr "")) ;;
  match r with
  | inl response => ret response
  | inr output_path => predict power_request ot es output_path
  end.

Definition handle_request (data : str) : M Response :=
  match json_loads data with
  | LoadsRaised e => ret (error_response ("failed to handle request: " +:+ e))
  | LoadsPlainValue => raise AttributeError
  | LoadsRequest power_request =>
      if negb (is_output_type_supported (output_type power_request)) then
        ret (error_response
               ("output type " +:+ output_type power_request +:+ " is not supported"))
      else serve data power_request
  end.

(** The calls of line 139 made for a sequence of requests, in order; an
    exception ends the sequence as it ends the serving loop. *)
Fixpoint handle_requests (requests : list str) : M (list Response) :=
  match requests with
  | [] => ret []
  | data :: rest =>
      y <- handle_request data ;;
      ys <- handle_requests rest ;;
      ret (y :: ys)
  end.

(** ** [EstimatorServer.accepted] *)

Inductive LoopStep :=
| Break (data : bytes)
| Continue (data : bytes)
| Crash (e : exn).

(** Lines 134-137, one iteration on the chunk that [recv] returned.
    [shunk is None] is false since [strip] returned a bytes object. *)
Definition loop_body (received data : bytes) : LoopStep :=
  let shunk := Bytes.strip received in
  let data := data +:+ shunk in
  match Bytes.decode shunk with
  | None => Crash UnicodeDecodeError
  | Some text =>
      match Bytes.index_last text with
      | None => Crash IndexError
      | Some c => if bool_decide (c = "}") then Break data else Continue data
      end
  end.

(** Lines 133-137 on the chunks that the successive [recv] calls return;
    once they are used up the peer has closed and [recv] returns [b""], on
    which the body raises (see [loop_body_closed]).  The second component is
    what was not read. *)
Fixpoint recv_loop (incoming : list bytes) (data : bytes) : outcome bytes * list bytes :=
  match incoming with
  | [] =>
      match loop_body "" data with
      | Break data => (Returned data, [])
      | Continue _ => (Raised IndexError, [])
      | Crash e => (Raised e, [])
      end
  | received :: rest =>
      match loop_body received data with
      | Break data => (Returned data, rest)
      | Continue data => recv_loop rest data
      | Crash e => (Raised e, rest)
      end
  end.

(** Lines 131-141; the result is the list of messages sent on the
    connection. *)
Definition accepted (incoming : list bytes) : M (list bytes) :=
  match fst (recv_loop incoming "") with
  | Raised e => raise e
  | Returned data =>
      match Bytes.decode data with
      | None => raise UnicodeDecodeError
      | Some decoded_data =>
          y <- handle_request decoded_data ;;
          let response := json_dumps y in
          ret [Bytes.encode response]
      end
  end.

(** ** Auxiliary definitions used to state the properties *)

(** The cache after the lazy initialisation of lines 64-65. *)
Definition init_cache (lm : gmap str (gmap str Model)) (ot : str) : gmap str (gmap str Model) :=
  match lm !! ot with
  | Some _ => lm
  | None => <[ot := ∅]> lm
  end.

(** The cache once [load_and_install] has run on it. *)
Definition installed (lm : gmap str (gmap str Model)) (ot es : str)
    (loaded_item : option Model)
    : gmap str (gmap str Model) :=
  match loaded_item with
  | Some item =>
      if usable loaded_item then <[ot := <[es := item]> (default ∅ (lm !! ot))]> lm else lm
  | None => lm
  end.

(** The disk after the conditional deletion of lines 78-80 and of lines 105-106. *)
Definition removed_if_found (d : FS) (p : str) : FS :=
  if path_exists d p then rmtree d p else d.

Definition removal_events (d : FS) (p : str) : list Event :=
  if path_exists d p then [PathExists p true; Rmtree p] else [PathExists p false].

(** The response built at line 108 from what the model's [get_power] gives. *)
Definition prediction (model : Model) (power_request : PowerRequest) : Response :=
  let '(powers, msg) := get_power model (datapoint power_request) in
  mkResponse powers msg.

(** How lines 81-93 obtain the artifact when they do: it is on the disk, or
    the model server delivers it, or the archive does.  The indices are the
    path that is kept in [output_path], the disk afterwards and the calls. *)
Inductive obtained (power_request : PowerRequest) (p : str) (d0 : FS)
    : str → FS → list Event → Prop :=
| obtained_local :
    path_exists d0 p = true →
    obtained power_request p d0 p d0 [PathExists p true]
| obtained_remote d1 q :
    path_exists d0 p = false →
    make_request d0 power_request = (d1, Some q) →
    obtained power_request p d0 q d1 [PathExists p false; MakeRequest (Some q)]
| obtained_archive d1 d2 q :
    path_exists d0 p = false →
    make_request d0 power_request = (d1, None) →
    get_achived_model d1 power_request = (d2, Some q) →
    obtained power_request p d0 q d2
      [PathExists p false; MakeRequest None; GetArchivedModel (Some q)].

(** ** The claims that the code does not satisfy, as they are stated *)

(** C3 as stated: the flag depends on the request and the cache only. *)
Definition mismatch_flag_as_stated : Prop :=
  ∀ (rq : PowerRequest) (ot es : str) (lm : gmap str (gmap str Model)),
    mismatch_trainer rq ot es lm = true ↔
    ∃ t current,
      trainer_name rq = Some t ∧ t ≠ "" ∧
      cache_entry lm ot es = Some current ∧ model_trainer_name current ≠ t.

(** C4 as stated: neither attempt changes [loaded_model] at any level. *)
Definition failed_resolution_as_stated (data : str) (st : State) : Prop :=
  ∀ r1 st1 ev1 r2 st2 ev2,
    handle_request data st = (r1, st1, ev1) →
    handle_request data st1 = (r2, st2, ev2) →
    MakeRequest None ∈ ev1 → GetArchivedModel None ∈ ev1 →
    MakeRequest None ∈ ev2 → GetArchivedModel None ∈ ev2 →
    (∃ m, r1 = Returned (mkResponse ∅ m) ∧ r2 = Returned (mkResponse ∅ m)) ∧
    loaded_model st1 = loaded_model st ∧ loaded_model st2 = loaded_model st1.

(** C5 as stated: whenever the named trainer differs from the cached one, an
    artifact found at the locator's path is removed first, and a model that
    gets installed has the requested trainer. *)
Definition trainer_mismatch_as_stated (data : str) (st : State) : Prop :=
  ∀ rq t current r st' evs,
    json_loads data = LoadsRequest rq →
    let ot := output_type rq in
    let es := normalize_energy_source (energy_source rq) in
    let p := get_download_output_path es ot in
    trainer_name rq = Some t → t ≠ "" →
    cache_entry (loaded_model st) ot es = Some current →
    model_trainer_name current ≠ t →
    handle_request data st = (r, st', evs) →
    (path_exists (fs st) p = true → ∃ rest, evs = PathExists p true :: Rmtree p :: rest) ∧
    (LoadDownloadedModel es ot true ∈ evs →
     ∃ item, cache_entry (loaded_model st') ot es = Some item ∧ model_trainer_name item = t).

(** C2 as stated: whenever the model that answers reports a failure message,
    an artifact is removed, also when the model came from the cache, and the
    next identical request goes through the file system again. *)
Definition prediction_failure_as_stated (data : str) (st : State) : Prop :=
  ∀ rq st' evs model,
    json_loads data = LoadsRequest rq →
    let ot := output_type rq in
    let es := normalize_energy_source (energy_source rq) in
    let p := get_download_output_path es ot in
    handle_request data st = (Returned (prediction model rq), st', evs) →
    cache_entry (loaded_model st') ot es = Some model →
    msg (prediction model rq) ≠ "" →
    path_exists (fs st) p = true →
    (∃ q, Rmtree q ∈ evs) ∧
    (∀ r2 st2 ev2, handle_request data st' = (r2, st2, ev2) → ev2 ≠ []).

End Estimator.

(** ** A concrete environment

    Frames are lists of rows, values are integers, the disk maps the path of
    an artifact to the model stored there ([None] for an artifact that cannot
    be loaded).  A resolver that has an artifact writes it at the locator's
    path and returns that path. *)

Module Demo.

Abbreviation Frame := (list (list Z)).
Abbreviation DModel := (@Model Frame Z unit).
Abbreviation DRequest := (@PowerRequest Frame).
Abbreviation Disk := (gmap str (option (@Model Frame Z unit))).
Abbreviation DState := (@State Frame Z unit (gmap str (option (@Model Frame Z unit)))).

Definition quote : str := String (ascii_of_nat 34) "".

Definition quoted (s : str) : str := quote +:+ s +:+ quote.

Definition request (ot : str) (source trainer : option str) : DRequest :=
  mkPowerRequest trainer ["cpu_time"] "" ot source [] [[10%Z]].

Definition render_opt (o : option str) : str :=
  match o with
  | Some s => quoted s
  | None => "null"
  end.

(** The JSON text of a request made by [request]. *)
Definition render (r : DRequest) : str :=
  "{" +:+ quoted "metrics" +:+ ": [" +:+ quoted "cpu_time" +:+ "], "
  +:+ quoted "values" +:+ ": [[10]], "
  +:+ quoted "output_type" +:+ ": " +:+ quoted (output_type r) +:+ ", "
  +:+ quoted "source" +:+ ": " +:+ render_opt (energy_source r) +:+ ", "
  +:+ quoted "system_features" +:+ ": [], "
  +:+ quoted "system_values" +:+ ": [], "
  +:+ quoted "trainer_name" +:+ ": " +:+ render_opt (trainer_name r) +:+ "}".

Definition known : list DRequest :=
  [ request "AbsPower" (Some "rapl") (Some "");
    request "AbsPower" None (Some "");
    request "AbsPower" (Some "intel_rapl") (Some "XgboostFitTrainer");
    request "Energy" (Some "rapl") (Some "") ].

(** Modelled from the spec: [json.loads] with the object hook, on the texts
    that the examples use.  The texts of [known] are decoded to their
    requests; "5" and "[1]" are JSON values that are not objects, which are
    returned as plain values; "" and "{" are not JSON and are rejected with
    the decoder's message.  Every other text is outside the examples and is
    treated as not JSON. *)
Definition loads (data : str) : @Loads Frame :=
  match List.find (λ r, bool_decide (render r = data)) known with
  | Some r => LoadsRequest r
  | None =>
      if bool_decide (data ∈ ["5"; "[1]"]) then LoadsPlainValue
      else LoadsRaised "Expecting value: line 1 column 1 (char 0)"
  end.

Definition locate (es ot : str) : str := "/tmp/download/" +:+ es +:+ "/" +:+ ot.

Definition fetch (artifact : option (option DModel)) (d : Disk) (r : DRequest)
    : Disk * option str :=
  match artifact, energy_source r with
  | Some a, Some es => let p := locate es (output_type r) in (<[p := a]> d, Some p)
  | _, _ => (d, None)
  end.

(** A model of the given trainer whose [get_power] reports [failure]. *)
Definition model (trainer failure : str) : DModel :=
  mkModel "demo" trainer (Some ())
    (λ _, (if bool_decide (failure = "") then {["package" := 42%Z]} else ∅, failure)).

(** [json.dumps] of a string of printable ASCII characters: the quotation
    mark and the backslash are escaped. *)
Fixpoint escape (s : str) : str :=
  match s with
  | "" => ""
  | String c rest =>
      if bool_decide (c = ascii_of_nat 34) || bool_decide (c = ascii_of_nat 92)
      then String (ascii_of_nat 92) (String c (escape rest))
      else String c (escape rest)
  end.

(** [json.dumps] of the response dict, with the default separators; the
    powers are integers here. *)
Definition dumps (y : @Response Z) : str :=
  "{" +:+ quoted "powers" +:+ ": {"
  +:+ String.concat ", " ((λ kv, quoted (escape kv.1) +:+ ": " +:+ pretty kv.2)
                            <$> map_to_list (powers y))
  +:+ "}, " +:+ quoted "msg" +:+ ": " +:+ quoted (escape (msg y)) +:+ "}".

(** Modelled from the spec: an instance of the collaborators that
    [estimator.py] imports and whose code is not in this file (the supported
    output types, the Artifact Locator, the Model Loader, the Remote Resolver
    and the Archive Resolver of sections 4.1, 4.2 and 6, and the switch of the
    model server).  [remote] and [archive] say what each resolver has to
    offer. *)
Definition env (enabled : bool) (remote archive : option (option DModel))
    : @Collaborators Frame Z unit Disk := {|
  json_loads := loads;
  is_output_type_supported := λ s, bool_decide (s ∈ ["AbsPower"; "DynPower"]);
  ModelOutputType := ["AbsPower"; "DynPower"];
  is_model_server_enabled := enabled;
  get_download_output_path := locate;
  path_exists := λ d p, bool_decide (is_Some (d !! p));
  rmtree := λ d p, delete p d;
  make_request := fetch remote;
  get_achived_model := fetch archive;
  load_downloaded_model := λ d es ot, default None (d !! locate es ot);
  json_dumps := dumps |}.

Definition empty_state : DState := mkState ∅ ∅.

(** A state with a model cached for (AbsPower, rapl-sysfs) and its artifact
    on the disk. *)
Definition cached_state (m : DModel) : DState :=
  mkState {["AbsPower" := {["rapl-sysfs" := m]}]}
          {[locate "rapl-sysfs" "AbsPower" := Some m]}.

Definition plain : str := render (request "AbsPower" (Some "rapl") (Some "")).

Definition null_source : str := render (request "AbsPower" None (Some "")).

Definition xgboost : str :=
  render (request "AbsPower" (Some "intel_rapl") (Some "XgboostFitTrainer")).

Definition unsupported : str := render (request "Energy" (Some "rapl") (Some "")).

(** The text sent for a prediction of [model] without failure. *)
Definition answer : str :=
  "{" +:+ quoted "powers" +:+ ": {" +:+ quoted "package" +:+ ": 42}, "
  +:+ quoted "msg" +:+ ": " +:+ quoted "" +:+ "}".

End Demo.

(** ** The serving loop and the life cycle of the socket

    [EstimatorServer.start] (lines 115-129), [clean_socket] (lines 144-147),
    [sig_handler] (lines 150-152) and [run] (lines 163-177).  The server is
    run on a finite list of arrivals: connections, given by the chunks that
    their [recv] calls return, and a SIGTERM delivered while the loop waits in
    [accept].  When the arrivals are used up the server is still waiting in
    [accept]: it has not halted. *)

(** What can leave [start] and [run]: an exception of [accepted] (all of them
    are subclasses of [Exception]), an [OSError] of [bind] or [unlink], or the
    [SystemExit] of [sys.exit]. *)
Inductive halt :=
| Exception (e : exn)
| OSError (message : str)
| SystemExit (code : Z).

(** What is written: [sys.stdout.write], [logger.error], [click.echo]. *)
Inductive Message :=
| Stdout (text : str)
| LogError (text : str)
| ClickEcho (text : str).

Inductive Arrival :=
| Connection (chunks : list bytes)
| Sigterm.

Inductive os_result (FS : Type) :=
| OsDone (d : FS)
| OsFailed (message : str).
Arguments OsDone {FS} d.
Arguments OsFailed {FS} message.

(** The buffer does not end in the closing brace after any of the chunks. *)
Definition never_closed (data : bytes) (chunks : list bytes) : Prop :=
  ∀ k, k < length chunks →
       Bytes.last_byte (Bytes.accumulate data (take (S k) chunks)) ≠ Some Bytes.closing_brace.

Section Lifecycle.

Context {DataFrame Value Estimator FS : Type}.
Context {collab : @Collaborators DataFrame Value Estimator FS}.

(** The configured path of the socket, [socket.bind] on a path, and
    [os.remove], which is also [os.unlink]; a failure carries the text of the
    [OSError]. *)
Class SocketOS := {
  SERVE_SOCKET : str;
  socket_bind : FS → str → os_result FS;
  os_remove : FS → str → os_result FS }.

Context {sock : SocketOS}.

(** What the properties of the life cycle assume of the operating system:
    removing a path that exists succeeds and makes it disappear, removing a
    path that does not exist fails; binding creates the path and fails on a
    path that exists. *)
Class SocketLaws : Prop := {
  remove_found d p :
    path_exists d p = true → ∃ d', os_remove d p = OsDone d' ∧ path_exists d' p = false;
  remove_missing d p :
    path_exists d p = false → ∃ m, os_remove d p = OsFailed m;
  bind_fresh d p :
    path_exists d p = false → ∃ d', socket_bind d p = OsDone d' ∧ path_exists d' p = true;
  bind_taken d p :
    path_exists d p = true → ∃ m, socket_bind d p = OsFailed m }.

(** The state of a server that has halted, or waits in [accept] when
    [halted] is [None]: the process state, the calls that the requests made,
    the messages sent on the connections, and what was written. *)
Record Served := mkServed {
  halted : option halt;
  final : @State DataFrame Value Estimator FS;
  calls : list Event;
  sent : list bytes;
  messages : list Message }.

(** Lines 144-147. *)
Definition clean_socket (d : FS) : os_result FS :=
  if path_exists d SERVE_SOCKET then os_remove d SERVE_SOCKET else OsDone d.

(** Lines 150-152: the disk that the handler leaves and what it raises. *)
Definition sig_handler (d : FS) : FS * halt :=
  match clean_socket d with
  | OsDone d' => (d', SystemExit 1)
  | OsFailed m => (d, OSError m)
  end.

(** Lines 168 and 117: the first [clean_socket] of [run] and the [bind] of
    [start], which give the disk on which the loop starts. *)
Definition startup (d : FS) : os_result FS :=
  match clean_socket d with
  | OsDone d' => socket_bind d' SERVE_SOCKET
  | OsFailed m => OsFailed m
  end.

(** Lines 121-123, with the handler that [run] installs at line 169. *)
Fixpoint serving_loop (arrivals : list Arrival) (st : State) : Served :=
  match arrivals with
  | [] => mkServed None st [] [] []
  | Connection chunks :: rest =>
      match accepted chunks st with
      | (Returned out, st1, evs) =>
          let s := serving_loop rest st1 in
          mkServed (halted s) (final s) (evs ++ calls s) (out ++ sent s) (messages s)
      | (Raised e, st1, evs) => mkServed (Some (Exception e)) st1 evs [] []
      end
  | Sigterm :: _ =>
      let '(d, h) := sig_handler (fs st) in
      mkServed (Some h) (mkState (loaded_model st) d) [] [] []
  end.

Definition newline : str := String (ascii_of_nat 10) "".

(** Lines 115-129.  [bind] comes before the [try]: when it raises, the
    [finally] clause does not run. *)
Definition start (socket_path : str) (arrivals : list Arrival) (st : State) : Served :=
  match socket_bind (fs st) socket_path with
  | OsFailed m => mkServed (Some (OSError m)) st [] [] []
  | OsDone d =>
      let s := serving_loop arrivals (mkState (loaded_model st) d) in
      match halted s with
      | None => s
      | Some h =>
          match os_remove (fs (final s)) socket_path with
          | OsDone d' =>
              mkServed (Some h) (mkState (loaded_model (final s)) d') (calls s) (sent s)
                (messages s ++ [Stdout ("close socket" +:+ newline)])
          | OsFailed m =>
              mkServed (Some h) (final s) (calls s) (sent s)
                (messages s ++ [LogError ("failed to close socket: " +:+ m)])
          end
      end
  end.

(** Lines 163-177, after the logging is set up.  [set_env_from_model_config]
    fixes the configuration that the collaborators stand for.  The first
    [clean_socket] comes before the [try]; an exception of the one in the
    [finally] clause replaces the exception that was on its way.  [return 0]
    is only reached when [start] returns, which its loop never does. *)
Definition run (arrivals : list Arrival) (st : State) : Served :=
  match clean_socket (fs st) with
  | OsFailed m => mkServed (Some (OSError m)) st [] [] []
  | OsDone d =>
      let s := start SERVE_SOCKET arrivals (mkState (loaded_model st) d) in
      match halted s with
      | None => s
      | Some h =>
          match clean_socket (fs (final s)) with
          | OsDone d' =>
              mkServed (Some h) (mkState (loaded_model (final s)) d') (calls s) (sent s)
                (messages s ++ [ClickEcho "estimator exit"])
          | OsFailed m =>
              mkServed (Some (OSError m)) (final s) (calls s) (sent s)
                (messages s ++ [ClickEcho "estimator exit"])
          end
      end
  end.

(** The text that a connection hands to [handle_request], when its chunks
    frame one. *)
Definition framed (chunks : list bytes) : option str :=
  match fst (recv_loop chunks "") with
  | Returned data => Bytes.decode data
  | Raised _ => None
  end.

(** Every model in the cache has an estimator. *)
Definition cache_usable (lm : gmap str (gmap str (@Model DataFrame Value Estimator)))
    : Prop :=
  ∀ ot es model, cache_entry lm ot es = Some model → is_Some (estimator model).

End Lifecycle.

(** ** [PowerRequest.__init__]

    Lines 26-36.  A pandas frame is its number of rows and its labelled
    columns, in order. *)

Module Pandas.

Record Frame (V : Type) := mkFrame {
  nrows : nat;
  columns : list (str * list V) }.
Arguments mkFrame {V} nrows columns.
Arguments nrows {V} f.
Arguments columns {V} f.

(** [df[name] = values] for a list of as many values as the frame has rows:
    the values replace every column labelled [name]; when there is none, a
    column is appended. *)
Definition assign {V} (df : Frame V) (name : str) (values : list V) : Frame V :=
  if bool_decide (name ∈ (fst <$> columns df)) then
    mkFrame (nrows df)
      ((λ c : str * list V, if bool_decide (c.1 = name) then (c.1, values) else c)
         <$> columns df)
  else mkFrame (nrows df) (columns df ++ [(name, values)]).

(** The labels of the columns, in order. *)
Definition names {V} (df : Frame V) : list str := fst <$> columns df.

End Pandas.

Inductive init_error :=
| FrameError (message : str)
| SystemValuesIndexError.

Section Request.

Context {V : Type}.

(** [pd.DataFrame(values, columns=metrics)]: the frame, or the text of the
    exception that pandas raises. *)
Variable DataFrame_new : list (list V) → list str → str + Pandas.Frame V.

(** Lines 35-36: the loop over [range(len(system_features))], where
    [system_values[i]] raises [IndexError] when the values are used up.
    [size] is [data_point_size]. *)
Fixpoint broadcast_features (size : nat) (system_features : list str)
    (system_values : list V) (df : Pandas.Frame V) : init_error + Pandas.Frame V :=
  match system_features with
  | [] => inr df
  | feature :: features =>
      match system_values with
      | [] => inl SystemValuesIndexError
      | v :: vs =>
          broadcast_features size features vs (Pandas.assign df feature (replicate size v))
      end
  end.

(** Lines 26-36. *)
Definition PowerRequest_init (metrics : list str) (values : list (list V))
    (output_type : str) (source : option str) (system_features : list str)
    (system_values : list V) (trainer_name : option str) (filter : str)
    : init_error + @PowerRequest (Pandas.Frame V) :=
  match DataFrame_new values metrics with
  | inl m => inl (FrameError m)
  | inr df =>
      match broadcast_features (Pandas.nrows df) system_features system_values df with
      | inl e => inl e
      | inr datapoint =>
          inr (mkPowerRequest trainer_name metrics filter output_type source
                 system_features datapoint)
      end
  end.

(** The value that goes with the last occurrence of [name] among the
    features, when the features and the values are read side by side. *)
Fixpoint last_value (name : str) (system_features : list str) (system_values : list V)
    : option V :=
  match system_features, system_values with
  | feature :: features, v :: vs =>
      match last_value name features vs with
      | Some w => Some w
      | None => if bool_decide (feature = name) then Some v else None
      end
  | _, _ => None
  end.

(** Every column has as many values as the frame has rows. *)
Definition well_shaped (df : Pandas.Frame V) : Prop :=
  Forall (λ c, length c.2 = Pandas.nrows df) (Pandas.columns df).

End Request.

(** ** The concrete environment, continued: the socket and the frames *)

Module DemoServer.

Import Demo.

(** Modelled from the spec: the socket is a path on the disk (section 6);
    [bind] creates it and fails when it is there, [os.remove] deletes it and
    fails when it is missing. *)
Definition socket_os : @SocketOS Disk := {|
  SERVE_SOCKET := "/tmp/estimator.sock";
  socket_bind := λ d p,
    if bool_decide (is_Some (d !! p)) then OsFailed "Address already in use"
    else OsDone (<[p := None]> d);
  os_remove := λ d p,
    if bool_decide (is_Some (d !! p)) then OsDone (delete p d)
    else OsFailed "No such file or directory" |}.

(** The same socket in a directory where [bind] is refused. *)
Definition refusing_os : @SocketOS Disk := {|
  SERVE_SOCKET := "/tmp/estimator.sock";
  socket_bind := λ d p, OsFailed "Permission denied";
  os_remove := λ d p,
    if bool_decide (is_Some (d !! p)) then OsDone (delete p d)
    else OsFailed "No such file or directory" |}.

(** A state whose disk holds a socket left behind by an earlier process. *)
Definition stale_state : DState := mkState ∅ {["/tmp/estimator.sock" := None]}.

(** The two octets of the UTF-8 encoding of U+00E9. *)
Definition e_acute_lead : str := String (ascii_of_nat 195) "".

Definition e_acute_trail : str := String (ascii_of_nat 169) "".

(** Modelled from the spec: [pd.DataFrame(values, columns=metrics)] for rows
    that all have one value per metric (section 3); other values are
    rejected. *)
Definition frame_of (values : list (list Z)) (metrics : list str) : str + Pandas.Frame Z :=
  if bool_decide (Forall (λ row, length row = length metrics) values) then
    inr (Pandas.mkFrame (length values)
           (imap (λ i m, (m, (λ row : list Z, default 0%Z (row !! i)) <$> values)) metrics))
  else inl "columns passed do not match the data".

End DemoServer.

(** * Properties *)

(** ** Strings *)

Module StrFacts.

Lemma append_cons a (s t : str) : String a s +:+ t = String a (s +:+ t).
Proof. reflexivity. Qed.

Lemma append_nil (t : str) : "" +:+ t = t.
Proof. reflexivity. Qed.

Lemma startswith_spec p s : Str.startswith p s = true ↔ ∃ post, s = p +:+ post.
Proof.
  revert s. induction p as [|a p IH]; intros s; simpl.
  - split; [intros _; by exists s | done].
  - destruct s as [|b s].
    + split; [done | intros [post Hp]; rewrite append_cons in Hp; discriminate].
    + destruct (decide (a = b)) as [->|Hne].
      * rewrite IH. split; intros [post Hp]; exists post;
          rewrite append_cons in *; congruence.
      * split; [done | intros [post Hp]; rewrite append_cons in Hp; congruence].
Qed.

Lemma contains_spec sub s : Str.contains sub s = true ↔ Str.occurs_in sub s.
Proof.
  unfold Str.occurs_in. induction s as [|b s IH]; simpl.
  - rewrite orb_false_r, startswith_spec. split.
    + intros [post Hp]. by exists "", post.
    + intros (pre & post & Hp). destruct pre; [by exists post | discriminate].
  - rewrite orb_true_iff, startswith_spec, IH. split.
    + intros [[post Hp] | (pre & post & Hp)].
      * by exists "", post.
      * exists (String b pre), post. by rewrite append_cons, Hp.
    + intros (pre & post & Hp). destruct pre as [|c pre].
      * left. by exists post.
      * right. exists pre, post. rewrite append_cons in Hp. congruence.
Qed.

End StrFacts.

(** ** Byte strings *)

Module BytesFacts.

Lemma last_byte_list s :
  Bytes.last_byte s = last (list_ascii_of_string s).
Proof.
  induction s as [|c s IH]; [done|]. destruct s as [|c' s]; [done|].
  change (Bytes.last_byte (String c (String c' s))) with (Bytes.last_byte (String c' s)).
  by rewrite IH.
Qed.

Lemma last_byte_app data s :
  s ≠ "" → Bytes.last_byte (data +:+ s) = Bytes.last_byte s.
Proof.
  intros Hs. induction data as [|c data IH]; [done|].
  rewrite StrFacts.append_cons. cbn [Bytes.last_byte].
  destruct (data +:+ s) eqn:E; [|by rewrite <- IH].
  destruct data; [by rewrite StrFacts.append_nil in E | discriminate].
Qed.

Lemma last_code_point_suffix r acc : ∃ pre, Bytes.last_code_point r acc = pre ++ acc.
Proof.
  revert acc. induction r as [|c r IH]; intros acc; cbn [Bytes.last_code_point].
  - by exists [].
  - destruct (Bytes.continuation _).
    + destruct (IH (c :: acc)) as [pre ->]. exists (pre ++ [c]). by rewrite <- app_assoc.
    + by exists [c].
Qed.

Lemma index_last_brace s :
  Bytes.index_last s = Some "}" ↔ Bytes.last_byte s = Some Bytes.closing_brace.
Proof.
  rewrite last_byte_list. unfold Bytes.index_last.
  destruct s as [|c0 s0]; [done|].
  set (l := list_ascii_of_string (String c0 s0)).
  destruct (rev l) as [|c r] eqn:Hrev.
  { apply (f_equal (@rev ascii)) in Hrev. rewrite rev_involutive in Hrev. discriminate. }
  assert (last l = Some c) as ->.
  { apply (f_equal (@rev ascii)) in Hrev. rewrite rev_involutive in Hrev. rewrite Hrev.
    cbn [rev]. by rewrite last_snoc. }
  cbn [Bytes.last_code_point].
  destruct (Bytes.continuation (N_of_ascii c)) eqn:Hc.
  - destruct (last_code_point_suffix r [c]) as [pre ->]. split.
    + intros [= Hs]. apply (f_equal list_ascii_of_string) in Hs.
      rewrite list_ascii_of_string_of_list_ascii in Hs.
      destruct pre as [|? [|? ?]]; simplify_eq/=.
    + intros [= ->]. done.
  - split.
    + intros [= Hs]. by simplify_eq/=.
    + intros [= ->]. done.
Qed.

End BytesFacts.

(** ** The estimator *)

Section Properties.

Context {DataFrame Value Estimator FS : Type}.
Context {collab : @Collaborators DataFrame Value Estimator FS}.

Implicit Types (st : @State DataFrame Value Estimator FS).
Implicit Types (lm : gmap str (gmap str (@Model DataFrame Value Estimator))).
Implicit Types (power_request rq : @PowerRequest DataFrame).
Implicit Types (data ot es : str).

Lemma init_output_type_run ot st :
  init_output_type ot st = (Returned (), mkState (init_cache (loaded_model st) ot) (fs st), []).
Proof.
  unfold init_output_type, init_cache, bind, get_loaded_model, ret, set_loaded_model.
  destruct st as [lm d]; simpl. by destruct (lm !! ot).
Qed.

Lemma init_cache_lookup lm ot : init_cache lm ot !! ot = Some (default ∅ (lm !! ot)).
Proof.
  unfold init_cache. destruct (lm !! ot) eqn:E; simpl; [done|]. by rewrite lookup_insert_eq.
Qed.

Lemma cache_entry_init lm ot ot' es' :
  cache_entry (init_cache lm ot) ot' es' = cache_entry lm ot' es'.
Proof.
  unfold cache_entry, init_cache. destruct (lm !! ot) eqn:E; [done|].
  destruct (decide (ot = ot')) as [<-|Hne].
  - by rewrite lookup_insert_eq, E.
  - by rewrite lookup_insert_ne.
Qed.

Lemma init_cache_present lm ot es model :
  cache_entry lm ot es = Some model → init_cache lm ot = lm.
Proof.
  unfold cache_entry, init_cache. by destruct (lm !! ot).
Qed.

Lemma init_cache_idem lm ot : init_cache (init_cache lm ot) ot = init_cache lm ot.
Proof.
  unfold init_cache at 1. by rewrite init_cache_lookup.
Qed.

(** ** The blocks of [handle_request] in direct style *)

Lemma obtain_path_run data rq p st :
  obtain_path data rq p st =
    if path_exists (fs st) p then (Returned (inr p), st, [PathExists p true])
    else
      match make_request (fs st) rq with
      | (fs1, Some q) =>
          (Returned (inr q), mkState (loaded_model st) fs1,
           [PathExists p false; MakeRequest (Some q)])
      | (fs1, None) =>
          match get_achived_model fs1 rq with
          | (fs2, Some q) =>
              (Returned (inr q), mkState (loaded_model st) fs2,
               [PathExists p false; MakeRequest None; GetArchivedModel (Some q)])
          | (fs2, None) =>
              (Returned (inl (error_response ("failed to get model from request " +:+ data))),
               mkState (loaded_model st) fs2,
               [PathExists p false; MakeRequest None; GetArchivedModel None])
          end
      end.
Proof.
  unfold obtain_path, bind, os_path_exists, call_make_request, call_get_achived_model, ret.
  destruct (path_exists (fs st) p); simpl; [done|].
  destruct (make_request (fs st) rq) as [fs1 [q|]]; simpl; [done|].
  by destruct (get_achived_model fs1 rq) as [fs2 [q|]].
Qed.

Lemma load_and_install_run ot es st :
  is_Some (loaded_model st !! ot) →
  load_and_install ot es st =
    let loaded_item := load_downloaded_model (fs st) es ot in
    (Returned (), mkState (installed (loaded_model st) ot es loaded_item) (fs st),
     [LoadDownloadedModel es ot (usable loaded_item)]).
Proof.
  intros [inner Hin].
  unfold load_and_install, installed, bind, call_load_downloaded_model, get_loaded_model,
    getitem, set_loaded_model, ret.
  destruct st as [lm d]; simpl in *.
  destruct (load_downloaded_model d es ot) as [item|]; simpl; [|done].
  destruct (bool_decide (is_Some (estimator item))); simpl; [|done].
  by rewrite Hin.
Qed.

Lemma installed_unusable lm ot es loaded_item :
  usable loaded_item = false → installed lm ot es loaded_item = lm.
Proof. unfold installed. destruct loaded_item; [by intros ->|done]. Qed.

Lemma installed_usable lm ot es loaded_item :
  usable loaded_item = true → cache_entry (installed lm ot es loaded_item) ot es = loaded_item.
Proof.
  unfold installed, cache_entry. destruct loaded_item as [item|]; [|done].
  intros ->. by rewrite lookup_insert_eq; simpl; rewrite lookup_insert_eq.
Qed.

Lemma installed_lookup lm ot es loaded_item :
  is_Some (lm !! ot) → is_Some (installed lm ot es loaded_item !! ot).
Proof.
  unfold installed. intros Hs. destruct loaded_item; [|done].
  destruct (usable _); [|done]. rewrite lookup_insert_eq. eauto.
Qed.

Lemma remove_if_found_run p st :
  bind (os_path_exists p) (λ found : bool, if found then shutil_rmtree p else ret ()) st =
    (Returned (), mkState (loaded_model st) (removed_if_found (fs st) p),
     removal_events (fs st) p).
Proof.
  unfold bind, os_path_exists, shutil_rmtree, ret, removed_if_found, removal_events.
  destruct st as [lm d]; simpl. by destruct (path_exists d p).
Qed.

Lemma obtain_path_cache data rq p st r st1 ev :
  obtain_path data rq p st = (r, st1, ev) →
  loaded_model st1 = loaded_model st ∧ ∃ v, r = Returned v.
Proof.
  rewrite obtain_path_run.
  destruct (path_exists (fs st) p); [intros [= <- <- <-]; eauto|].
  destruct (make_request (fs st) rq) as [fs1 [q|]]; [intros [= <- <- <-]; eauto|].
  destruct (get_achived_model fs1 rq) as [fs2 [q|]]; intros [= <- <- <-]; eauto.
Qed.

Lemma resolve_run data rq ot es (mm : bool) st :
  is_Some (loaded_model st !! ot) →
  resolve data rq ot es mm st =
    let p := get_download_output_path es ot in
    let d0 := if mm then removed_if_found (fs st) p else fs st in
    let ev0 := if mm then removal_events (fs st) p else [] in
    match obtain_path data rq p (mkState (loaded_model st) d0) with
    | (Returned (inl y), st1, ev1) => (Returned (inl y), st1, ev0 ++ ev1)
    | (Returned (inr q), st1, ev1) =>
        let loaded_item := load_downloaded_model (fs st1) es ot in
        (Returned (inr q),
         mkState (installed (loaded_model st1) ot es loaded_item) (fs st1),
         ev0 ++ ev1 ++ [LoadDownloadedModel es ot (usable loaded_item)])
    | (Raised e, st1, ev1) => (Raised e, st1, ev0 ++ ev1)
    end.
Proof.
  intros Hot. unfold resolve. cbv zeta.
  set (p := get_download_output_path es ot).
  unfold bind at 1.
  assert ((if mm
           then bind (os_path_exists p)
                  (λ found : bool, if found then shutil_rmtree p else ret ())
           else ret ()) st
          = (Returned (), mkState (loaded_model st)
                            (if mm then removed_if_found (fs st) p else fs st),
             if mm then removal_events (fs st) p else [])) as ->.
  { destruct mm; [apply remove_if_found_run|]. by destruct st. }
  unfold bind at 1.
  destruct (obtain_path data rq p _) as [[r st1] ev1] eqn:Hob.
  destruct (obtain_path_cache _ _ _ _ _ _ _ Hob) as [Hlm [v ->]]. simpl in Hlm.
  destruct v as [y|q].
  - unfold ret. cbn beta iota. by rewrite app_nil_r.
  - unfold bind at 1. rewrite load_and_install_run by (by rewrite Hlm).
    cbv zeta. unfold ret. cbn beta iota. by rewrite app_nil_r.
Qed.

Lemma predict_run rq ot es p st model :
  cache_entry (loaded_model st) ot es = Some model →
  predict rq ot es p st =
    let '(pw, m) := get_power model (datapoint rq) in
    if bool_decide (m ≠ "") && bool_decide (p ≠ "") then
      (Returned (mkResponse pw m),
       mkState (loaded_model st) (removed_if_found (fs st) p),
       removal_events (fs st) p)
    else (Returned (mkResponse pw m), st, []).
Proof.
  unfold cache_entry, predict. intros Hm.
  destruct (loaded_model st !! ot) as [inner|] eqn:Hin; [simpl in Hm|done].
  unfold bind at 1. unfold get_loaded_model at 1.
  unfold bind at 1. unfold getitem at 1. rewrite Hin. unfold ret at 1.
  unfold bind at 1. unfold getitem at 1. rewrite Hm. unfold ret at 1.
  destruct (get_power model (datapoint rq)) as [pw m].
  unfold bind at 1.
  destruct (bool_decide (m ≠ "")); simpl; [|done].
  destruct (bool_decide (p ≠ "")); simpl; [|done].
  rewrite remove_if_found_run. unfold ret. by rewrite ?app_nil_r.
Qed.

Lemma predict_missing rq ot es p st :
  is_Some (loaded_model st !! ot) →
  cache_entry (loaded_model st) ot es = None →
  predict rq ot es p st = (Raised (KeyError es), st, []).
Proof.
  unfold cache_entry, predict. intros [inner Hin] Hm. rewrite Hin in Hm. simpl in Hm.
  unfold bind at 1. unfold get_loaded_model at 1.
  unfold bind at 1. unfold getitem at 1. rewrite Hin. unfold ret at 1.
  unfold bind at 1. unfold getitem at 1. by rewrite Hm.
Qed.

Lemma mismatch_trainer_init rq ot es lm :
  mismatch_trainer rq ot es (init_cache lm ot) = mismatch_trainer rq ot es lm.
Proof. unfold mismatch_trainer. by rewrite cache_entry_init. Qed.

Lemma serve_run data rq st :
  output_type rq ∈ ModelOutputType →
  serve data rq st =
    let ot := output_type rq in
    let es := normalize_energy_source (energy_source rq) in
    let rq' := set_energy_source rq es in
    let st0 := mkState (init_cache (loaded_model st) ot) (fs st) in
    let mm := mismatch_trainer rq' ot es (loaded_model st) in
    if negb (bool_decide (is_Some (cache_entry (loaded_model st) ot es))) || mm then
      match resolve data rq' ot es mm st0 with
      | (Returned (inl y), st1, ev1) => (Returned y, st1, ev1)
      | (Returned (inr p), st1, ev1) =>
          let '(r, st2, ev2) := predict rq' ot es p st1 in (r, st2, ev1 ++ ev2)
      | (Raised e, st1, ev1) => (Raised e, st1, ev1)
      end
    else predict rq' ot es "" st0.
Proof.
  intros Hot. unfold serve. cbv zeta.
  set (ot := output_type rq). set (es := normalize_energy_source (energy_source rq)).
  set (rq' := set_energy_source rq es).
  unfold bind at 1. unfold ModelOutputType_getitem.
  rewrite bool_decide_eq_true_2 by done. unfold ret at 1.
  unfold bind at 1. rewrite init_output_type_run.
  unfold bind at 1. unfold get_loaded_model at 1. cbn [loaded_model].
  unfold bind at 1. unfold getitem at 1. rewrite init_cache_lookup. unfold ret at 1.
  rewrite mismatch_trainer_init.
  replace (default ∅ (loaded_model st !! ot) !! es)
    with (cache_entry (loaded_model st) ot es)
    by (unfold cache_entry; destruct (loaded_model st !! ot); done).
  unfold bind at 1.
  destruct (negb _ || _).
  - destruct (resolve _ _ _ _ _ _) as [[[[y|q]|e] st1] ev1]; simpl.
    + unfold ret. by rewrite !app_nil_r.
    + by destruct (predict _ _ _ _ _) as [[r st2] ev2].
    + done.
  - unfold ret at 1. by destruct (predict _ _ _ _ _) as [[r st2] ev2].
Qed.

Lemma handle_request_run data rq st :
  json_loads data = LoadsRequest rq →
  is_output_type_supported (output_type rq) = true →
  handle_request data st = serve data rq st.
Proof. unfold handle_request. by intros -> ->. Qed.

Lemma append_nonempty a (s t : str) : String a s +:+ t ≠ "".
Proof. by rewrite StrFacts.append_cons. Qed.

Lemma serve_not_member data rq st :
  output_type rq ∉ ModelOutputType →
  serve data rq st = (Raised (KeyError (output_type rq)), st, []).
Proof.
  intros Hot. unfold serve, bind, ModelOutputType_getitem.
  by rewrite bool_decide_eq_false_2.
Qed.

(** A request whose key pair is cached and whose trainer does not mismatch is
    answered by the cached model: no collaborator is called and the state is
    left as it was. *)
Lemma cached_request_run data rq st model :
  json_loads data = LoadsRequest rq →
  is_output_type_supported (output_type rq) = true →
  output_type rq ∈ ModelOutputType →
  let ot := output_type rq in
  let es := normalize_energy_source (energy_source rq) in
  cache_entry (loaded_model st) ot es = Some model →
  mismatch_trainer (set_energy_source rq es) ot es (loaded_model st) = false →
  handle_request data st = (Returned (prediction model rq), st, []).
Proof.
  intros Hj Hs Hot ot es Hm Hmm.
  rewrite (handle_request_run _ _ _ Hj Hs), serve_run by done. cbv zeta.
  fold ot es. rewrite Hm, Hmm. rewrite bool_decide_eq_true_2 by eauto. cbn [negb orb].
  rewrite (init_cache_present _ _ _ _ Hm).
  rewrite (predict_run _ _ _ _ _ model) by done.
  unfold prediction. cbn [datapoint set_energy_source].
  destruct (get_power model (datapoint rq)) as [pw m].
  rewrite (bool_decide_eq_false_2 ("" ≠ "")) by (intros Hc; by apply Hc).
  rewrite andb_false_r.
  by destruct st.
Qed.

(** ** The mismatch flag *)

Lemma mismatch_trainer_enabled rq ot es lm :
  mismatch_trainer rq ot es lm = true → is_model_server_enabled = true.
Proof. unfold mismatch_trainer. by destruct is_model_server_enabled. Qed.

Lemma mismatch_trainer_entry rq ot es lm :
  mismatch_trainer rq ot es lm = true →
  ∃ t current,
    trainer_name rq = Some t ∧ t ≠ "" ∧
    cache_entry lm ot es = Some current ∧ model_trainer_name current ≠ t.
Proof.
  unfold mismatch_trainer.
  destruct is_model_server_enabled; [|done].
  destruct (trainer_name rq) as [t|]; [|done].
  case_bool_decide as Ht; [|done].
  destruct (cache_entry lm ot es) as [current|]; [|done].
  intros Hne%bool_decide_eq_true. eauto 10.
Qed.

Lemma mismatch_trainer_intro rq ot es lm t current :
  is_model_server_enabled = true →
  trainer_name rq = Some t → t ≠ "" →
  cache_entry lm ot es = Some current → model_trainer_name current ≠ t →
  mismatch_trainer rq ot es lm = true.
Proof.
  unfold mismatch_trainer. intros -> -> Ht -> Hne.
  rewrite bool_decide_eq_true_2 by done. by apply bool_decide_eq_true.
Qed.

(** ** The calls recorded by a run *)

(** Closes a goal whose hypothesis [H] equates two different events. *)
Ltac no_such_event H :=
  lazymatch type of H with
  | _ ∨ _ => destruct H as [H|H]; no_such_event H
  | ∃ _, _ => let x := fresh in destruct H as [x H]; no_such_event H
  | _ = _ => discriminate H
  end.

Lemma removal_events_elem (d : FS) p e :
  e ∈ removal_events d p → (∃ b, e = PathExists p b) ∨ e = Rmtree p.
Proof.
  unfold removal_events. destruct (path_exists d p);
    rewrite !elem_of_cons, elem_of_nil; intuition eauto.
Qed.

Lemma obtained_elem rq p (d0 : FS) q d ev e :
  obtained rq p d0 q d ev → e ∈ ev →
  (∃ b, e = PathExists p b) ∨ (∃ o, e = MakeRequest o) ∨ (∃ q', e = GetArchivedModel (Some q')).
Proof.
  intros Hob. inversion Hob; subst; rewrite !elem_of_cons, elem_of_nil; intuition eauto.
Qed.

Lemma resolution_events_elem e (mm : bool) (d : FS) p rq q d0 d1 ev1 ev3 es ot u :
  obtained rq p d0 q d1 ev1 →
  ev3 = [] ∨ ev3 = removal_events d1 q →
  e ∈ (if mm then removal_events d p else [])
        ++ ev1 ++ [LoadDownloadedModel es ot u] ++ ev3 →
  e = LoadDownloadedModel es ot u ∨
  (∃ p' b, e = PathExists p' b) ∨ (∃ p', e = Rmtree p') ∨
  (∃ o, e = MakeRequest o) ∨ (∃ q', e = GetArchivedModel (Some q')).
Proof.
  intros Hob Hev3. rewrite !elem_of_app, elem_of_cons, elem_of_nil.
  intros [He | [He | [[He | []] | He]]].
  - destruct mm; [|by apply elem_of_nil in He].
    apply removal_events_elem in He as [[b ->] | ->]; eauto 10.
  - destruct (obtained_elem _ _ _ _ _ _ _ Hob He) as [[b ->] | [[o ->] | [q' ->]]]; eauto 10.
  - by left.
  - destruct Hev3 as [-> | ->]; [by apply elem_of_nil in He|].
    apply removal_events_elem in He as [[b ->] | ->]; eauto 10.
Qed.

Lemma failure_events_elem e (mm : bool) (d : FS) p :
  e ∈ (if mm then removal_events d p else [])
        ++ [PathExists p false; MakeRequest None; GetArchivedModel None] →
  (∃ p' b, e = PathExists p' b) ∨ (∃ p', e = Rmtree p') ∨
  e = MakeRequest None ∨ e = GetArchivedModel None.
Proof.
  rewrite elem_of_app, !elem_of_cons, elem_of_nil.
  intros [He | [-> | [-> | [-> | []]]]]; eauto 10.
  destruct mm; [|by apply elem_of_nil in He].
  apply removal_events_elem in He as [[b ->] | ->]; eauto 10.
Qed.

(** ** Inversion of the blocks *)

Lemma resolve_inv data rq ot es (mm : bool) st r st' evs :
  is_Some (loaded_model st !! ot) →
  resolve data rq ot es mm st = (r, st', evs) →
  let p := get_download_output_path es ot in
  let ev0 := if mm then removal_events (fs st) p else [] in
  let d0 := if mm then removed_if_found (fs st) p else fs st in
  (r = Returned (inl (error_response ("failed to get model from request " +:+ data))) ∧
   loaded_model st' = loaded_model st ∧
   path_exists d0 p = false ∧
   evs = ev0 ++ [PathExists p false; MakeRequest None; GetArchivedModel None])
  ∨
  (∃ q ev1,
     let loaded_item := load_downloaded_model (fs st') es ot in
     r = Returned (inr q) ∧
     obtained rq p d0 q (fs st') ev1 ∧
     loaded_model st' = installed (loaded_model st) ot es loaded_item ∧
     evs = ev0 ++ ev1 ++ [LoadDownloadedModel es ot (usable loaded_item)]).
Proof.
  intros Hot. rewrite resolve_run by done. cbv zeta.
  rewrite obtain_path_run. cbn [fs loaded_model].
  set (p := get_download_output_path es ot).
  set (d0 := if mm then removed_if_found (fs st) p else fs st).
  destruct (path_exists d0 p) eqn:Hex.
  { intros [= <- <- <-]. right. exists p, [PathExists p true]. cbn.
    split_and!; try done. by constructor. }
  destruct (make_request d0 rq) as [d1 [q|]] eqn:Hmk.
  { intros [= <- <- <-]. right. exists q, [PathExists p false; MakeRequest (Some q)]. cbn.
    split_and!; try done. by econstructor. }
  destruct (get_achived_model d1 rq) as [d2 [q|]] eqn:Har.
  - intros [= <- <- <-]. right.
    exists q, [PathExists p false; MakeRequest None; GetArchivedModel (Some q)]. cbn.
    split_and!; try done. by econstructor.
  - intros [= <- <- <-]. by left.
Qed.

Lemma predict_inv rq ot es p st r st' evs :
  is_Some (loaded_model st !! ot) →
  predict rq ot es p st = (r, st', evs) →
  loaded_model st' = loaded_model st ∧
  ((cache_entry (loaded_model st) ot es = None ∧
    r = Raised (KeyError es) ∧ st' = st ∧ evs = [])
   ∨
   (∃ model,
      cache_entry (loaded_model st) ot es = Some model ∧
      r = Returned (prediction model rq) ∧
      ((msg (prediction model rq) ≠ "" ∧ p ≠ "" ∧
        fs st' = removed_if_found (fs st) p ∧ evs = removal_events (fs st) p)
       ∨
       ((msg (prediction model rq) = "" ∨ p = "") ∧ st' = st ∧ evs = [])))).
Proof.
  intros Hot. destruct (cache_entry (loaded_model st) ot es) as [model|] eqn:Hm.
  - rewrite (predict_run _ _ _ _ _ model) by done.
    assert (∃ pw m, get_power model (datapoint rq) = (pw, m)) as (pw & m & Hgp)
      by (destruct (get_power model (datapoint rq)); eauto).
    assert (prediction model rq = mkResponse pw m) as Hpred
      by (unfold prediction; by rewrite Hgp).
    rewrite Hgp. intros Hrun. cut (loaded_model st' = loaded_model st ∧
      r = Returned (mkResponse pw m) ∧
      ((m ≠ "" ∧ p ≠ "" ∧ fs st' = removed_if_found (fs st) p ∧
        evs = removal_events (fs st) p)
       ∨ ((m = "" ∨ p = "") ∧ st' = st ∧ evs = []))).
    { intros (? & ? & ?). split; [done|]. right. exists model. by rewrite Hpred. }
    revert Hrun.
    destruct (decide (m = "")) as [->|Hmsg].
    { rewrite (bool_decide_eq_false_2 ("" ≠ "")) by (intros Hc; by apply Hc).
      cbn [andb]. intros [= <- <- <-]. do 2 (split; [done|]). right. eauto. }
    rewrite (bool_decide_eq_true_2 (m ≠ "")) by done. cbn [andb].
    destruct (decide (p = "")) as [->|Hp].
    { rewrite (bool_decide_eq_false_2 ("" ≠ "")) by (intros Hc; by apply Hc).
      intros [= <- <- <-]. do 2 (split; [done|]). right. eauto. }
    rewrite (bool_decide_eq_true_2 (p ≠ "")) by done.
    intros [= <- <- <-]. do 2 (split; [done|]). left. eauto.
  - rewrite predict_missing by done. intros [= <- <- <-]. split; [done|]. left. eauto.
Qed.

(** Every run of [serve] that enters the resolution of lines 77-99 ends in
    one of two ways: both resolvers fail (line 90), or an artifact is obtained
    and loaded and lines 101-108 run on the cache that results. *)
Lemma serve_resolution_inv data rq st r st' evs :
  output_type rq ∈ ModelOutputType →
  let ot := output_type rq in
  let es := normalize_energy_source (energy_source rq) in
  let rq' := set_energy_source rq es in
  let lm0 := init_cache (loaded_model st) ot in
  let mm := mismatch_trainer rq' ot es (loaded_model st) in
  let p := get_download_output_path es ot in
  let ev0 := if mm then removal_events (fs st) p else [] in
  let d0 := if mm then removed_if_found (fs st) p else fs st in
  cache_entry (loaded_model st) ot es = None ∨ mm = true →
  serve data rq st = (r, st', evs) →
  (r = Returned (error_response ("failed to get model from request " +:+ data)) ∧
   loaded_model st' = lm0 ∧
   path_exists d0 p = false ∧
   evs = ev0 ++ [PathExists p false; MakeRequest None; GetArchivedModel None])
  ∨
  (∃ q d1 ev1 ev3,
     let loaded_item := load_downloaded_model d1 es ot in
     let lm1 := installed lm0 ot es loaded_item in
     obtained rq' p d0 q d1 ev1 ∧
     loaded_model st' = lm1 ∧
     evs = ev0 ++ ev1 ++ [LoadDownloadedModel es ot (usable loaded_item)] ++ ev3 ∧
     ((cache_entry lm1 ot es = None ∧ r = Raised (KeyError es) ∧ fs st' = d1 ∧ ev3 = [])
      ∨
      (∃ model,
         cache_entry lm1 ot es = Some model ∧
         r = Returned (prediction model rq) ∧
         ((msg (prediction model rq) ≠ "" ∧ q ≠ "" ∧
           fs st' = removed_if_found d1 q ∧ ev3 = removal_events d1 q)
          ∨
          ((msg (prediction model rq) = "" ∨ q = "") ∧ fs st' = d1 ∧ ev3 = []))))).
Proof.
  intros Hot ot es rq' lm0 mm p ev0 d0 Hbranch. rewrite serve_run by done. cbv zeta.
  fold ot es rq' mm.
  assert (negb (bool_decide (is_Some (cache_entry (loaded_model st) ot es))) || mm = true)
    as ->.
  { destruct Hbranch as [-> | ->]; [|by rewrite orb_true_r].
    rewrite bool_decide_eq_false_2; [done|]. by intros [? ?]. }
  destruct (resolve _ _ _ _ _ _) as [[r1 st1] ev1] eqn:Hres.
  apply resolve_inv in Hres; [|cbn; rewrite init_cache_lookup; eauto].
  cbn [fs loaded_model] in Hres. fold p ev0 d0 lm0 in Hres.
  destruct Hres as [(-> & Hlm & Hex & ->) | (q & ev_o & -> & Hob & Hlm & ->)].
  { intros [= <- <- <-]. by left. }
  destruct (predict rq' ot es q st1) as [[r2 st2] ev3] eqn:Hp.
  apply predict_inv in Hp.
  2:{ rewrite Hlm. apply installed_lookup. unfold lm0. rewrite init_cache_lookup. eauto. }
  destruct Hp as [Hlm2 Hp]. intros [= <- <- <-]. right.
  exists q, (fs st1), ev_o, ev3. cbv zeta. rewrite Hlm in Hp.
  split; [done|]. split; [congruence|]. split; [by rewrite <- !app_assoc|].
  destruct Hp as [(Hnone & -> & -> & ->) | (model & Hsome & -> & Hcase)].
  - left. eauto.
  - right. exists model. do 2 (split; [done|]).
    destruct Hcase as [(? & ? & ? & ?) | (? & -> & ->)]; [left|right]; eauto.
Qed.

(** The runs of [handle_request] that call no collaborator come from the
    other branches; they leave the disk alone and at most initialise the
    inner dictionary of the output type. *)
Lemma handle_request_inv data st r st' evs :
  handle_request data st = (r, st', evs) →
  (evs = [] ∧ fs st' = fs st ∧
   (loaded_model st' = loaded_model st ∨
    ∃ rq, json_loads data = LoadsRequest rq ∧
          loaded_model st' = init_cache (loaded_model st) (output_type rq)))
  ∨
  (∃ rq,
     json_loads data = LoadsRequest rq ∧
     is_output_type_supported (output_type rq) = true ∧
     output_type rq ∈ ModelOutputType ∧
     (cache_entry (loaded_model st) (output_type rq)
        (normalize_energy_source (energy_source rq)) = None ∨
      mismatch_trainer
        (set_energy_source rq (normalize_energy_source (energy_source rq)))
        (output_type rq) (normalize_energy_source (energy_source rq))
        (loaded_model st) = true) ∧
     serve data rq st = (r, st', evs)).
Proof.
  unfold handle_request.
  destruct (json_loads data) as [e|rq|] eqn:Hj;
    [intros [= <- <- <-]; left; eauto | | intros [= <- <- <-]; left; eauto].
  destruct (is_output_type_supported (output_type rq)) eqn:Hs; cbn [negb];
    [|intros [= <- <- <-]; left; eauto].
  destruct (decide (output_type rq ∈ ModelOutputType)) as [Hot|Hot];
    [|rewrite serve_not_member by done; intros [= <- <- <-]; left; eauto].
  set (ot := output_type rq). set (es := normalize_energy_source (energy_source rq)).
  destruct (cache_entry (loaded_model st) ot es) as [model|] eqn:Hm; [|right; eauto 10].
  destruct (mismatch_trainer (set_energy_source rq es) ot es (loaded_model st)) eqn:Hmm;
    [right; eauto 10|].
  intros Hrun. left.
  pose proof (cached_request_run data rq st model Hj Hs Hot Hm Hmm) as Hc.
  unfold handle_request in Hc. rewrite Hj, Hs in Hc. cbn [negb] in Hc.
  rewrite Hc in Hrun. injection Hrun as <- <- <-. eauto.
Qed.

(** A run in which the archive was asked and had nothing ends at line 90. *)
Lemma archive_failure_run data st r st' evs :
  handle_request data st = (r, st', evs) →
  GetArchivedModel None ∈ evs →
  r = Returned (error_response ("failed to get model from request " +:+ data)) ∧
  ∃ rq, json_loads data = LoadsRequest rq ∧
        loaded_model st' = init_cache (loaded_model st) (output_type rq).
Proof.
  intros Hrun Hev.
  apply handle_request_inv in Hrun
    as [(-> & _) | (rq & Hj & Hs & Hot & Hbr & Hserve)]; [by apply elem_of_nil in Hev|].
  apply serve_resolution_inv in Hserve
    as [(-> & Hlm & Hex & ->) | (q & d1 & ev1 & ev3 & Hob & Hlm & -> & Hcase)]; try done.
  - eauto.
  - eapply resolution_events_elem in Hev; [|done|].
    2:{ destruct Hcase as [(_ & _ & _ & ->) | (model & _ & _ & [(_ & _ & _ & ->) | (_ & _ & ->)])];
        eauto. }
    no_such_event Hev.
Qed.

(** The run in which the artifact is missing and both resolvers return no
    path, in full. *)
Lemma failed_resolution_run data rq st d1 d2 :
  json_loads data = LoadsRequest rq →
  is_output_type_supported (output_type rq) = true →
  output_type rq ∈ ModelOutputType →
  let ot := output_type rq in
  let es := normalize_energy_source (energy_source rq) in
  let rq' := set_energy_source rq es in
  let mm := mismatch_trainer rq' ot es (loaded_model st) in
  let p := get_download_output_path es ot in
  let d0 := if mm then removed_if_found (fs st) p else fs st in
  cache_entry (loaded_model st) ot es = None ∨ mm = true →
  path_exists d0 p = false →
  make_request d0 rq' = (d1, None) →
  get_achived_model d1 rq' = (d2, None) →
  handle_request data st =
    (Returned (error_response ("failed to get model from request " +:+ data)),
     mkState (init_cache (loaded_model st) ot) d2,
     (if mm then removal_events (fs st) p else [])
       ++ [PathExists p false; MakeRequest None; GetArchivedModel None]).
Proof.
  intros Hj Hs Hot ot es rq' mm p d0 Hbr Hex Hmk Har.
  rewrite (handle_request_run _ _ _ Hj Hs), serve_run by done. cbv zeta.
  fold ot es rq' mm.
  assert (negb (bool_decide (is_Some (cache_entry (loaded_model st) ot es))) || mm = true)
    as ->.
  { destruct Hbr as [-> | ->]; [|by rewrite orb_true_r].
    rewrite bool_decide_eq_false_2; [done|]. by intros [? ?]. }
  rewrite resolve_run by (cbn; rewrite init_cache_lookup; eauto). cbv zeta.
  rewrite obtain_path_run. cbn [fs loaded_model]. fold p d0.
  by rewrite Hex, Hmk, Har.
Qed.

(** A run in which the archive was asked and had nothing is that run. *)
Lemma failed_resolution_inv data st r st' evs :
  handle_request data st = (r, st', evs) →
  GetArchivedModel None ∈ evs →
  ∃ rq d1,
    json_loads data = LoadsRequest rq ∧
    is_output_type_supported (output_type rq) = true ∧
    output_type rq ∈ ModelOutputType ∧
    let ot := output_type rq in
    let es := normalize_energy_source (energy_source rq) in
    let rq' := set_energy_source rq es in
    let mm := mismatch_trainer rq' ot es (loaded_model st) in
    let p := get_download_output_path es ot in
    let d0 := if mm then removed_if_found (fs st) p else fs st in
    (cache_entry (loaded_model st) ot es = None ∨ mm = true) ∧
    path_exists d0 p = false ∧
    make_request d0 rq' = (d1, None) ∧
    get_achived_model d1 rq' = (fs st', None).
Proof.
  intros Hrun Hev.
  apply handle_request_inv in Hrun
    as [(-> & _) | (rq & Hj & Hs & Hot & Hbr & Hserve)]; [by apply elem_of_nil in Hev|].
  pose proof Hserve as Hcase.
  apply serve_resolution_inv in Hcase
    as [(_ & _ & Hex & Hevs) | (q & d1 & ev1 & ev3 & Hob & Hlm & -> & Hcase)]; try done.
  2:{ eapply resolution_events_elem in Hev; [|done|].
      2:{ destruct Hcase
            as [(_ & _ & _ & ->) | (model & _ & _ & [(_ & _ & _ & ->) | (_ & _ & ->)])];
          eauto. }
      no_such_event Hev. }
  exists rq. cbv zeta.
  set (ot := output_type rq) in *. set (es := normalize_energy_source (energy_source rq)) in *.
  set (rq' := set_energy_source rq es) in *.
  set (mm := mismatch_trainer rq' ot es (loaded_model st)) in *.
  set (p := get_download_output_path es ot) in *.
  set (d0 := if mm then removed_if_found (fs st) p else fs st) in *.
  rewrite serve_run in Hserve by done. cbv zeta in Hserve. fold ot es rq' mm in Hserve.
  assert (negb (bool_decide (is_Some (cache_entry (loaded_model st) ot es))) || mm = true)
    as Hcond.
  { destruct Hbr as [-> | ->]; [|by rewrite orb_true_r].
    rewrite bool_decide_eq_false_2; [done|]. by intros [? ?]. }
  rewrite Hcond in Hserve.
  rewrite resolve_run in Hserve by (cbn; rewrite init_cache_lookup; eauto).
  cbv zeta in Hserve. rewrite obtain_path_run in Hserve. cbn [fs loaded_model] in Hserve.
  fold p d0 in Hserve. rewrite Hex in Hserve.
  destruct (make_request d0 rq') as [d1 [q|]] eqn:Hmk.
  { destruct (predict _ _ _ _ _) as [[r2 st2] ev2]. injection Hserve as _ _ Hserve.
    rewrite Hevs, <- !app_assoc in Hserve. apply app_inv_head in Hserve. discriminate. }
  destruct (get_achived_model d1 rq') as [d2 [q|]] eqn:Har.
  { destruct (predict _ _ _ _ _) as [[r2 st2] ev2]. injection Hserve as _ _ Hserve.
    rewrite Hevs, <- !app_assoc in Hserve. apply app_inv_head in Hserve. discriminate. }
  injection Hserve as _ <- _. exists d1. cbn [fs]. eauto 10.
Qed.

(** ** The claims *)

(** C7. A request whose output type is not supported gets a response with an
    empty [powers] mapping and a non-empty [msg]; the response is the same
    whatever the state is (the rejection comes before any cache lookup), the
    state is returned unchanged and no collaborator is called. *)
Theorem unsupported_output_type_rejected data rq :
  json_loads data = LoadsRequest rq →
  is_output_type_supported (output_type rq) = false →
  ∃ m, m ≠ "" ∧ ∀ st, handle_request data st = (Returned (mkResponse ∅ m), st, []).
Proof.
  intros Hj Hs. exists ("output type " +:+ output_type rq +:+ " is not supported").
  split; [apply append_nonempty|].
  intros st. unfold handle_request. by rewrite Hj, Hs.
Qed.

(** C3, as amended. The flag [mismatch_trainer] is true exactly when the model
    server is enabled, the request names a non-empty trainer, the key pair has
    a cache entry, and the trainer of that entry differs from the requested
    one. *)
Theorem mismatch_trainer_iff rq ot es lm :
  mismatch_trainer rq ot es lm = true ↔
    is_model_server_enabled = true ∧
    ∃ t current,
      trainer_name rq = Some t ∧ t ≠ "" ∧
      cache_entry lm ot es = Some current ∧ model_trainer_name current ≠ t.
Proof.
  split.
  - intros Hmm. split; [by apply (mismatch_trainer_enabled rq ot es lm)|].
    by apply mismatch_trainer_entry.
  - intros [Hen (t & current & Ht & Hne & Hc & Hd)]. by eapply mismatch_trainer_intro.
Qed.

(** C10. A null source and every source that contains "rapl" are normalised
    to "rapl-sysfs", every other source is left as it is; a request with a
    null source is answered by the model cached under the key "rapl-sysfs". *)
Theorem energy_source_normalization :
  normalize_energy_source None = "rapl-sysfs" ∧
  (∀ s, Str.occurs_in "rapl" s → normalize_energy_source (Some s) = "rapl-sysfs") ∧
  (∀ s, ¬ Str.occurs_in "rapl" s → normalize_energy_source (Some s) = s) ∧
  (∀ data rq st model,
     json_loads data = LoadsRequest rq →
     is_output_type_supported (output_type rq) = true →
     output_type rq ∈ ModelOutputType →
     energy_source rq = None →
     cache_entry (loaded_model st) (output_type rq) "rapl-sysfs" = Some model →
     mismatch_trainer (set_energy_source rq "rapl-sysfs") (output_type rq) "rapl-sysfs"
       (loaded_model st) = false →
     handle_request data st = (Returned (prediction model rq), st, [])).
Proof.
  split; [done|]. split; [|split].
  - intros s Hs%StrFacts.contains_spec. unfold normalize_energy_source. by rewrite Hs.
  - intros s Hs. unfold normalize_energy_source.
    destruct (Str.contains "rapl" s) eqn:E; [|done].
    by apply StrFacts.contains_spec in E.
  - intros data rq st model Hj Hs Hot Hsrc Hm Hmm.
    apply cached_request_run; try done; by rewrite Hsrc.
Qed.

(** C6. When the key pair of a request holds a cached model and the trainer
    name triggers no mismatch, any number of repetitions of the request is
    answered by that same cached model, without a single call to the file
    system (no path check, download, load or deletion) and with the cache and
    the disk left as they were. *)
Theorem cached_model_served_without_filesystem data rq st model (n : nat) :
  json_loads data = LoadsRequest rq →
  is_output_type_supported (output_type rq) = true →
  output_type rq ∈ ModelOutputType →
  let ot := output_type rq in
  let es := normalize_energy_source (energy_source rq) in
  cache_entry (loaded_model st) ot es = Some model →
  mismatch_trainer (set_energy_source rq es) ot es (loaded_model st) = false →
  handle_requests (replicate n data) st
    = (Returned (replicate n (prediction model rq)), st, []).
Proof.
  intros Hj Hs Hot ot es Hm Hmm. induction n as [|n IH]; [done|].
  cbn [replicate handle_requests]. unfold bind at 1.
  rewrite (cached_request_run _ _ _ _ Hj Hs Hot Hm Hmm).
  unfold bind at 1. rewrite IH. done.
Qed.

(** C9. When a run of [handle_request] reaches the loader and the loader
    yields no usable model (no item, or an item without estimator), the cache
    maps the key pair of the load, and every other key pair, to the same
    model after the run as before it. *)
Theorem failed_load_keeps_cache_entry data st r st' evs es ot :
  handle_request data st = (r, st', evs) →
  LoadDownloadedModel es ot false ∈ evs →
  cache_entry (loaded_model st') ot es = cache_entry (loaded_model st) ot es ∧
  ∀ ot' es', cache_entry (loaded_model st') ot' es' = cache_entry (loaded_model st) ot' es'.
Proof.
  intros Hrun Hev.
  cut (∀ ot' es',
         cache_entry (loaded_model st') ot' es' = cache_entry (loaded_model st) ot' es');
    [by eauto|].
  apply handle_request_inv in Hrun
    as [(-> & _) | (rq & Hj & Hs & Hot & Hbr & Hserve)]; [by apply elem_of_nil in Hev|].
  apply serve_resolution_inv in Hserve
    as [(-> & Hlm & Hex & ->) | (q & d1 & ev1 & ev3 & Hob & Hlm & -> & Hcase)]; try done.
  - apply failure_events_elem in Hev. no_such_event Hev.
  - eapply resolution_events_elem in Hev; [|done|].
    2:{ destruct Hcase as [(_ & _ & _ & ->) | (model & _ & _ & [(_ & _ & _ & ->) | (_ & _ & ->)])];
        eauto. }
    destruct Hev as [[= -> -> Hu] | Hev]; [|no_such_event Hev].
    intros ot' es'. rewrite Hlm, installed_unusable by done. apply cache_entry_init.
Qed.

(** C1, what the code does where the claim fails. When a run of
    [handle_request] reaches the loader, the loader yields no usable model and
    the key pair had no cache entry, the run does not return a response: the
    lookup of line 101 raises [KeyError]. *)
Theorem failed_load_without_entry_raises data st r st' evs es ot :
  handle_request data st = (r, st', evs) →
  LoadDownloadedModel es ot false ∈ evs →
  cache_entry (loaded_model st) ot es = None →
  r = Raised (KeyError es).
Proof.
  intros Hrun Hev Hnone.
  apply handle_request_inv in Hrun
    as [(-> & _) | (rq & Hj & Hs & Hot & Hbr & Hserve)]; [by apply elem_of_nil in Hev|].
  apply serve_resolution_inv in Hserve
    as [(-> & Hlm & Hex & ->) | (q & d1 & ev1 & ev3 & Hob & Hlm & -> & Hcase)]; try done.
  - apply failure_events_elem in Hev. no_such_event Hev.
  - eapply resolution_events_elem in Hev; [|done|].
    2:{ destruct Hcase as [(_ & _ & _ & ->) | (model & _ & _ & [(_ & _ & _ & ->) | (_ & _ & ->)])];
        eauto. }
    destruct Hev as [[= -> -> Hu] | Hev]; [|no_such_event Hev].
    rewrite installed_unusable, cache_entry_init, Hnone in Hcase by done.
    destruct Hcase as [(_ & -> & _) | (model & Hc & _)]; [done|discriminate].
Qed.

(** C4, as amended. When both resolvers return no path in a run, the run
    returns a response with an empty [powers] mapping and a non-empty message;
    no key pair gets a model or changes its model, and the cache changes at
    most by the empty inner dictionary that lines 64-65 create for the output
    type.  The failure is not remembered: a second run of the same request
    checks the locator's path again; when both resolvers return no path again,
    it returns the same response and leaves the cache as the first run left
    it; and when the first run left the disk as it was, the second run is the
    first one again, call by call. *)
Theorem failed_resolution_is_repeatable data st r1 st1 ev1 :
  handle_request data st = (r1, st1, ev1) →
  MakeRequest None ∈ ev1 → GetArchivedModel None ∈ ev1 →
  ∃ m,
    m ≠ "" ∧
    r1 = Returned (mkResponse ∅ m) ∧
    (∀ ot es, cache_entry (loaded_model st1) ot es = cache_entry (loaded_model st) ot es) ∧
    (∃ ot, loaded_model st1 = init_cache (loaded_model st) ot) ∧
    (∀ r2 st2 ev2,
       handle_request data st1 = (r2, st2, ev2) →
       (∃ p found, PathExists p found ∈ ev2) ∧
       (MakeRequest None ∈ ev2 → GetArchivedModel None ∈ ev2 →
        r2 = Returned (mkResponse ∅ m) ∧ loaded_model st2 = loaded_model st1)) ∧
    (fs st1 = fs st → handle_request data st1 = (r1, st1, ev1)).
Proof.
  intros Hrun1 _ Hev1.
  destruct (failed_resolution_inv _ _ _ _ _ Hrun1 Hev1)
    as (rq & d1 & Hj & Hs & Hot & Hbr & Hex & Hmk & Har).
  cbv zeta in Hbr, Hex, Hmk, Har.
  pose proof (failed_resolution_run data rq st d1 (fs st1) Hj Hs Hot Hbr Hex Hmk Har) as Hfull.
  cbv zeta in Hfull. rewrite Hrun1 in Hfull. injection Hfull as Hr1 Hst1 Hevs.
  assert (loaded_model st1 = init_cache (loaded_model st) (output_type rq)) as Hlm1
    by (by rewrite Hst1 at 1).
  set (ot := output_type rq) in *. set (es := normalize_energy_source (energy_source rq)) in *.
  set (rq' := set_energy_source rq es) in *.
  set (p := get_download_output_path es ot) in *.
  assert (mismatch_trainer rq' ot es (loaded_model st1)
          = mismatch_trainer rq' ot es (loaded_model st)) as Hmm
    by (by rewrite Hlm1, mismatch_trainer_init).
  assert (cache_entry (loaded_model st1) ot es = None ∨
          mismatch_trainer rq' ot es (loaded_model st1) = true) as Hbr1
    by (by rewrite Hmm, Hlm1, cache_entry_init).
  exists ("failed to get model from request " +:+ data).
  split; [apply append_nonempty|]. split; [done|].
  split; [intros ot' es'; rewrite Hlm1; apply cache_entry_init|].
  split; [by exists ot|]. split.
  - intros r2 st2 ev2 Hrun2. split.
    + rewrite (handle_request_run _ _ _ Hj Hs) in Hrun2.
      apply serve_resolution_inv in Hrun2; [|done|done]. cbv zeta in Hrun2.
      fold ot es rq' p in Hrun2.
      destruct Hrun2 as [(_ & _ & _ & ->) | (q & d & ev & ev3 & Hob & _ & -> & _)].
      * exists p, false. rewrite elem_of_app, elem_of_cons. eauto.
      * inversion Hob; subst; eexists p, _; rewrite !elem_of_app, elem_of_cons; eauto.
    + intros _ Hev2.
      destruct (archive_failure_run _ _ _ _ _ Hrun2 Hev2) as (-> & rq2 & Hj2 & Hlm2).
      rewrite Hj in Hj2. injection Hj2 as <-. split; [done|].
      fold ot in Hlm2. by rewrite Hlm2, Hlm1, init_cache_idem.
  - intros Hfs.
    pose proof (failed_resolution_run data rq st1 d1 (fs st1) Hj Hs Hot Hbr1) as Hrun2.
    cbv zeta in Hrun2. fold ot es rq' p in Hrun2. rewrite Hmm, Hfs in Hrun2.
    rewrite Hfs in Har. rewrite (Hrun2 Hex Hmk Har), Hr1, Hevs. f_equal. f_equal.
    rewrite Hlm1, init_cache_idem, <- Hlm1, <- Hfs. by destruct st1.
Qed.

(** C5, as amended. With the model server enabled, when a request names a
    non-empty trainer that differs from the trainer of the model cached for
    its key pair, the run starts by checking the locator's path and removing
    the artifact found there, and only then checks the path again, on the disk
    as the removal left it, asks the resolvers and loads; when the load is
    usable, the model installed for the key pair is the very item that the
    loader returned in this run, that is, on the disk on which the artifact
    was obtained after the removal.  The trainer of that item is not compared
    with the requested one. *)
Theorem trainer_mismatch_forces_resolution data rq st t current r st' evs :
  json_loads data = LoadsRequest rq →
  is_output_type_supported (output_type rq) = true →
  output_type rq ∈ ModelOutputType →
  let ot := output_type rq in
  let es := normalize_energy_source (energy_source rq) in
  let rq' := set_energy_source rq es in
  let p := get_download_output_path es ot in
  is_model_server_enabled = true →
  trainer_name rq = Some t → t ≠ "" →
  cache_entry (loaded_model st) ot es = Some current →
  model_trainer_name current ≠ t →
  handle_request data st = (r, st', evs) →
  (∃ rest,
     evs = removal_events (fs st) p
             ++ PathExists p (path_exists (removed_if_found (fs st) p) p) :: rest) ∧
  (LoadDownloadedModel es ot true ∈ evs →
   ∃ q d1 ev1 ev3 item,
     obtained rq' p (removed_if_found (fs st) p) q d1 ev1 ∧
     evs = removal_events (fs st) p ++ ev1 ++ LoadDownloadedModel es ot true :: ev3 ∧
     load_downloaded_model d1 es ot = Some item ∧
     cache_entry (loaded_model st') ot es = Some item).
Proof.
  intros Hj Hs Hot ot es rq' p Hen Ht Hne Hc Hd Hrun.
  assert (mismatch_trainer rq' ot es (loaded_model st) = true) as Hmm
    by (by eapply mismatch_trainer_intro).
  rewrite (handle_request_run _ _ _ Hj Hs) in Hrun.
  apply serve_resolution_inv in Hrun; [|done|by right]. cbv zeta in Hrun.
  fold ot es rq' p in Hrun. rewrite Hmm in Hrun.
  destruct Hrun as [(-> & Hlm & Hex & ->) | (q & d1 & ev1 & ev3 & Hob & Hlm & -> & Hcase)].
  - split; [rewrite Hex; by eauto|].
    intros Hev. apply (failure_events_elem _ true) in Hev. no_such_event Hev.
  - split.
    + inversion Hob as [Hex | d' q' Hex | d' d'' q' Hex]; subst; rewrite Hex; eauto.
    + intros Hev. eapply (resolution_events_elem _ true) in Hev; [|done|].
      2:{ destruct Hcase
            as [(_ & _ & _ & ->) | (model & _ & _ & [(_ & _ & _ & ->) | (_ & _ & ->)])];
          eauto. }
      destruct Hev as [[= Hu] | Hev]; [|no_such_event Hev].
      symmetry in Hu. rewrite Hu.
      pose proof (installed_usable (init_cache (loaded_model st) ot) ot es _ Hu) as Hin.
      destruct (load_downloaded_model d1 es ot) as [item|] eqn:Hld; [|done].
      exists q, d1, ev1, ev3, item. do 3 (split; [done|]). by rewrite Hlm.
Qed.

(** C2, as amended. (1) When a run obtains an artifact and loads it (the key
    pair had no cache entry, or the trainer mismatched) and returns a response
    with a non-empty message, that response is the prediction of the model
    that the cache holds for the key pair after the run; the cache is as the
    load left it, so the entry stays in place; and the artifact at the path
    that was obtained is removed from the disk if that path is not empty and
    is found.  (2) When the model is served from the cache, without
    resolution, nothing is checked or removed on the disk, also on a failure
    message and however often the request is repeated. *)
Theorem prediction_failure_removes_obtained_artifact data rq st :
  json_loads data = LoadsRequest rq →
  is_output_type_supported (output_type rq) = true →
  output_type rq ∈ ModelOutputType →
  let ot := output_type rq in
  let es := normalize_energy_source (energy_source rq) in
  let rq' := set_energy_source rq es in
  let mm := mismatch_trainer rq' ot es (loaded_model st) in
  let p := get_download_output_path es ot in
  let d0 := if mm then removed_if_found (fs st) p else fs st in
  (∀ y st' evs u,
     handle_request data st = (Returned y, st', evs) →
     LoadDownloadedModel es ot u ∈ evs →
     msg y ≠ "" →
     ∃ model q d1 ev1 before,
       obtained rq' p d0 q d1 ev1 ∧
       loaded_model st'
         = installed (init_cache (loaded_model st) ot) ot es (load_downloaded_model d1 es ot) ∧
       cache_entry (loaded_model st') ot es = Some model ∧
       y = prediction model rq ∧
       (q ≠ "" → fs st' = removed_if_found d1 q ∧ evs = before ++ removal_events d1 q) ∧
       (q = "" → fs st' = d1))
  ∧
  (∀ model (n : nat),
     cache_entry (loaded_model st) ot es = Some model →
     mm = false →
     handle_requests (replicate n data) st
       = (Returned (replicate n (prediction model rq)), st, [])).
Proof.
  intros Hj Hs Hot ot es rq' mm p d0. split.
  - intros y st' evs u Hrun Hev Hmsg.
    apply handle_request_inv in Hrun
      as [(-> & _) | (rq2 & Hj2 & _ & _ & Hbr & Hserve)]; [by apply elem_of_nil in Hev|].
    rewrite Hj in Hj2. injection Hj2 as <-.
    apply serve_resolution_inv in Hserve; [|done|done]. cbv zeta in Hserve.
    fold ot es rq' mm p d0 in Hserve.
    destruct Hserve as [(_ & Hlm & Hex & ->) | (q & d1 & ev1 & ev3 & Hob & Hlm & -> & Hcase)].
    { apply failure_events_elem in Hev. no_such_event Hev. }
    rewrite <- Hlm in Hcase.
    destruct Hcase as [(_ & [=] & _) | (model & Hm & [= ->] & Hcase)].
    exists model, q, d1, ev1.
    destruct Hcase as [(_ & Hq & Hfs & ->) | ([Hc | ->] & Hfs & ->)]; [| done |].
    + eexists. do 4 (split; [done|]). split; [|done]. intros _. split; [done|].
      by rewrite !app_assoc.
    + exists []. do 4 (split; [done|]). done.
  - intros model n Hm Hmm. induction n as [|n IH]; [done|].
    cbn [replicate handle_requests]. unfold bind at 1.
    rewrite (cached_request_run _ _ _ _ Hj Hs Hot Hm Hmm).
    unfold bind at 1. by rewrite IH.
Qed.

(** ** The framing loop *)

(** Once the peer has closed, [recv] returns [b""] and the body raises. *)
Lemma loop_body_closed data : loop_body "" data = Crash IndexError.
Proof. reflexivity. Qed.

(** A chunk that is empty once stripped makes the loop raise, wherever it
    comes in the sequence. *)
Lemma recv_loop_blank received rest data :
  Bytes.strip received = "" →
  recv_loop (received :: rest) data = (Raised IndexError, rest).
Proof.
  intros Hblank. cbn [recv_loop]. unfold loop_body. by rewrite Hblank.
Qed.

Lemma decode_Some b s : Bytes.decode b = Some s → s = b.
Proof. unfold Bytes.decode. destruct (Bytes.utf8_valid _); congruence. Qed.

Lemma loop_body_well_formed c data :
  Bytes.well_formed_chunk c →
  loop_body c data =
    if bool_decide (Bytes.last_byte (data +:+ Bytes.strip c) = Some Bytes.closing_brace)
    then Break (data +:+ Bytes.strip c) else Continue (data +:+ Bytes.strip c).
Proof.
  intros [Hne [text Hdec]]. unfold loop_body. rewrite Hdec.
  apply decode_Some in Hdec as ->. rewrite BytesFacts.last_byte_app by done.
  destruct (Bytes.index_last (Bytes.strip c)) as [l|] eqn:Hl.
  - destruct (decide (l = "}")) as [->|Hl'].
    + apply BytesFacts.index_last_brace in Hl. by rewrite !bool_decide_eq_true_2.
    + rewrite !bool_decide_eq_false_2; [done| |done].
      intros Hb%BytesFacts.index_last_brace. congruence.
  - destruct (Bytes.strip c); [done|discriminate].
Qed.

(** On chunks that are all well formed, the loop stops at the first chunk
    after which the accumulated buffer ends in the closing brace, and leaves
    the rest unread. *)
Lemma recv_loop_stops_at_brace pre c rest data :
  Forall Bytes.well_formed_chunk (pre ++ [c]) →
  (∀ k, k < length pre →
        Bytes.last_byte (Bytes.accumulate data (take (S k) pre)) ≠ Some Bytes.closing_brace) →
  Bytes.last_byte (Bytes.accumulate data (pre ++ [c])) = Some Bytes.closing_brace →
  recv_loop (pre ++ c :: rest) data = (Returned (Bytes.accumulate data (pre ++ [c])), rest).
Proof.
  revert data. induction pre as [|c0 pre IH]; intros data Hwf Hbefore Hlast.
  - cbn [app] in Hwf. rewrite Forall_singleton in Hwf. cbn [app recv_loop].
    rewrite loop_body_well_formed by done.
    unfold Bytes.accumulate in *. cbn [fold_left app] in *.
    by rewrite bool_decide_eq_true_2.
  - cbn [app] in Hwf. rewrite Forall_cons in Hwf. destruct Hwf as [Hwf0 Hwf].
    cbn [app recv_loop].
    rewrite loop_body_well_formed by done.
    rewrite bool_decide_eq_false_2 by (apply (Hbefore 0); cbn [length]; lia).
    apply IH; [done| |done].
    intros k Hk. apply (Hbefore (S k)). cbn [length]. lia.
Qed.

(** X7. On chunks that are all well formed, when the buffer first ends in
    the closing brace after the chunk [c], [accepted] reads no further, hands
    the decoded buffer to [handle_request] and sends exactly one message, the
    encoded response; an exception of [handle_request] leaves [accepted]. *)
Lemma accepted_sends_one_response pre c rest text st :
  Forall Bytes.well_formed_chunk (pre ++ [c]) →
  (∀ k, k < length pre →
        Bytes.last_byte (Bytes.accumulate "" (take (S k) pre)) ≠ Some Bytes.closing_brace) →
  Bytes.last_byte (Bytes.accumulate "" (pre ++ [c])) = Some Bytes.closing_brace →
  Bytes.decode (Bytes.accumulate "" (pre ++ [c])) = Some text →
  accepted (pre ++ c :: rest) st =
    match handle_request text st with
    | (Returned y, st', evs) => (Returned [Bytes.encode (json_dumps y)], st', evs)
    | (Raised e, st', evs) => (Raised e, st', evs)
    end.
Proof.
  intros Hwf Hbefore Hlast Hdec. unfold accepted.
  rewrite recv_loop_stops_at_brace by done. cbn [fst]. rewrite Hdec.
  unfold bind. destruct (handle_request text st) as [[[y|e] st'] evs]; [|done].
  unfold ret. by rewrite app_nil_r.
Qed.
(** C8, what the code does where the claim fails. When the first chunk holds
    nothing but white space (or is empty), [accepted] raises [IndexError] at
    line 136: it neither reads the chunks that follow, although they may end
    in the closing brace, nor calls [handle_request], nor sends a response. *)
Theorem accepted_blank_chunk_raises blank rest st :
  Bytes.strip blank = "" →
  accepted (blank :: rest) st = (Raised IndexError, st, []).
Proof.
  intros Hblank. unfold accepted. by rewrite recv_loop_blank.
Qed.

End Properties.

(** * The properties at work in the concrete environment *)

Module DemoFacts.

Import Demo.

(** A run is the triple of its components. *)
Lemma run_eta {A B C} (x : A * B * C) : x = (x.1.1, x.1.2, x.2).
Proof. by destruct x as [[? ?] ?]. Qed.

(** Decides a closed goal by evaluation. *)
Ltac evaluate :=
  first [ reflexivity
        | vm_compute; reflexivity
        | apply (bool_decide_unpack _); vm_compute; exact I ].

(** C7 on a request for the output type Energy, which is not supported. *)
Lemma unsupported_output_type_witness :
  ∃ m, m ≠ "" ∧
    ∀ st, handle_request (collab := env true None None) unsupported st
          = (Returned (mkResponse ∅ m), st, []).
Proof.
  apply (unsupported_output_type_rejected (collab := env true None None) unsupported
           (request "Energy" (Some "rapl") (Some ""))); evaluate.
Defined.

(** C3: with the model server enabled, a request for XgboostFitTrainer
    mismatches a cached model of SGDRegressorTrainer. *)
Lemma mismatch_trainer_witness :
  mismatch_trainer (collab := env true None None)
    (request "AbsPower" (Some "rapl-sysfs") (Some "XgboostFitTrainer"))
    "AbsPower" "rapl-sysfs" (loaded_model (cached_state (model "SGDRegressorTrainer" "")))
  = true.
Proof.
  apply mismatch_trainer_iff. split; [reflexivity|].
  exists "XgboostFitTrainer", (model "SGDRegressorTrainer" "").
  split; [reflexivity|]. split; [discriminate|]. split; [evaluate|discriminate].
Defined.

(** C3 as stated fails with the model server disabled: the three conditions
    hold and the flag is false. *)
Lemma mismatch_flag_counterexample :
  ¬ mismatch_flag_as_stated (collab := env false None None).
Proof.
  intros Hc.
  destruct (Hc (request "AbsPower" (Some "rapl-sysfs") (Some "XgboostFitTrainer"))
               "AbsPower" "rapl-sysfs"
               (loaded_model (cached_state (model "SGDRegressorTrainer" ""))))
    as [_ Hback].
  assert (mismatch_trainer (collab := env false None None)
            (request "AbsPower" (Some "rapl-sysfs") (Some "XgboostFitTrainer"))
            "AbsPower" "rapl-sysfs"
            (loaded_model (cached_state (model "SGDRegressorTrainer" ""))) = true) as Hflag.
  { apply Hback. exists "XgboostFitTrainer", (model "SGDRegressorTrainer" "").
    split; [reflexivity|]. split; [discriminate|]. split; [evaluate|discriminate]. }
  discriminate Hflag.
Qed.

(** C8 on two blanks followed by a request. *)
Lemma accepted_blank_chunk_witness :
  accepted (collab := env true None None) ["  "; plain] empty_state
  = (Raised IndexError, empty_state, []).
Proof.
  apply (accepted_blank_chunk_raises (collab := env true None None)). evaluate.
Defined.

(** C10 on the sources intel_rapl, acpi and null. *)
Lemma energy_source_normalization_witness :
  normalize_energy_source (Some "intel_rapl") = "rapl-sysfs" ∧
  normalize_energy_source (Some "acpi") = "acpi" ∧
  handle_request (collab := env true None None) null_source
    (cached_state (model "SGDRegressorTrainer" ""))
  = (Returned (prediction (model "SGDRegressorTrainer" "")
                             (request "AbsPower" None (Some ""))),
     cached_state (model "SGDRegressorTrainer" ""), []).
Proof.
  destruct (energy_source_normalization (collab := env true None None))
    as (_ & Hrapl & Hother & Hnull).
  split; [|split].
  - apply Hrapl. exists "intel_", "". reflexivity.
  - apply Hother. intros Hc%StrFacts.contains_spec. vm_compute in Hc. discriminate.
  - apply (Hnull null_source (request "AbsPower" None (Some ""))); evaluate.
Defined.

(** C6 on three repetitions of a request whose model is cached. *)
Lemma cached_model_witness :
  handle_requests (collab := env true None None) (replicate 3 plain)
    (cached_state (model "SGDRegressorTrainer" ""))
  = (Returned (replicate 3 (prediction (model "SGDRegressorTrainer" "")
                                         (request "AbsPower" (Some "rapl") (Some "")))),
     cached_state (model "SGDRegressorTrainer" ""), []).
Proof.
  apply (cached_model_served_without_filesystem (collab := env true None None) plain
           (request "AbsPower" (Some "rapl") (Some ""))); evaluate.
Defined.

(** C9: the model server delivers an artifact of the requested trainer that
    cannot be loaded; the cached model of the other trainer stays. *)
Lemma failed_load_witness :
  let run := handle_request (collab := env true (Some None) None) xgboost
               (cached_state (model "SGDRegressorTrainer" "")) in
  LoadDownloadedModel "rapl-sysfs" "AbsPower" false ∈ run.2 ∧
  cache_entry (loaded_model run.1.2) "AbsPower" "rapl-sysfs"
    = Some (model "SGDRegressorTrainer" "").
Proof.
  intros run.
  assert (LoadDownloadedModel "rapl-sysfs" "AbsPower" false ∈ run.2) as Hev by evaluate.
  split; [exact Hev|].
  destruct (failed_load_keeps_cache_entry (collab := env true (Some None) None)
              xgboost (cached_state (model "SGDRegressorTrainer" ""))
              run.1.1 run.1.2 run.2 "rapl-sysfs" "AbsPower" (run_eta run) Hev) as [Hkey _].
  rewrite Hkey. evaluate.
Defined.

(** C1: the cache is empty and the archive delivers an artifact that cannot be
    loaded; the request is not answered, [KeyError] is raised. *)
Lemma failed_load_without_entry_witness :
  (handle_request (collab := env true None (Some None)) plain empty_state).1.1
  = Raised (KeyError "rapl-sysfs").
Proof.
  set (run := handle_request (collab := env true None (Some None)) plain empty_state).
  apply (failed_load_without_entry_raises (collab := env true None (Some None))
           plain empty_state run.1.1 run.1.2 run.2 "rapl-sysfs" "AbsPower" (run_eta run));
    evaluate.
Defined.

(** C4: neither resolver has an artifact and the cache is empty; the second
    attempt asks both resolvers again and is the first attempt again. *)
Lemma failed_resolution_witness :
  let run1 := handle_request (collab := env true None None) plain empty_state in
  let run2 := handle_request (collab := env true None None) plain run1.1.2 in
  (∃ m, m ≠ "" ∧ run1.1.1 = Returned (mkResponse ∅ m) ∧ run2.1.1 = Returned (mkResponse ∅ m) ∧
        loaded_model run2.1.2 = loaded_model run1.1.2) ∧
  (∃ p found, PathExists p found ∈ run2.2) ∧
  run2 = run1.
Proof.
  intros run1 run2.
  destruct (failed_resolution_is_repeatable (collab := env true None None) plain empty_state
              run1.1.1 run1.1.2 run1.2 (run_eta run1))
    as (m & Hm & H1 & _ & _ & Hsecond & Hrepeat); [evaluate..|].
  destruct (Hsecond run2.1.1 run2.1.2 run2.2 (run_eta run2)) as [Hagain Hsame].
  destruct Hsame as [H2 Hlm]; [evaluate..|].
  split; [exists m; eauto|]. split; [exact Hagain|].
  unfold run2. rewrite Hrepeat by evaluate. symmetry. apply run_eta.
Defined.

(** C4 as stated fails on the empty cache: after the first attempt the cache
    holds the empty inner dictionary of AbsPower. *)
Lemma failed_resolution_counterexample :
  ¬ failed_resolution_as_stated (collab := env true None None) plain empty_state.
Proof.
  intros Hc.
  set (run1 := handle_request (collab := env true None None) plain empty_state).
  set (run2 := handle_request (collab := env true None None) plain run1.1.2).
  destruct (Hc run1.1.1 run1.1.2 run1.2 run2.1.1 run2.1.2 run2.2 (run_eta run1) (run_eta run2))
    as (_ & Hlm & _); [evaluate..|].
  vm_compute in Hlm. discriminate Hlm.
Qed.

(** C5: the model server delivers a model of the requested trainer, which is
    loaded from the disk that the model server left and installed. *)
Lemma trainer_mismatch_witness :
  let st := cached_state (model "SGDRegressorTrainer" "") in
  let run := handle_request (collab := env true (Some (Some (model "XgboostFitTrainer" ""))) None)
               xgboost st in
  let p := locate "rapl-sysfs" "AbsPower" in
  (∃ rest, run.2 = [PathExists p true; Rmtree p] ++ PathExists p false :: rest) ∧
  ∃ d1 item,
    load_downloaded_model
      (Collaborators := env true (Some (Some (model "XgboostFitTrainer" ""))) None)
      d1 "rapl-sysfs" "AbsPower" = Some item ∧
    cache_entry (loaded_model run.1.2) "AbsPower" "rapl-sysfs" = Some item.
Proof.
  intros st run p.
  destruct (trainer_mismatch_forces_resolution
              (collab := env true (Some (Some (model "XgboostFitTrainer" ""))) None)
              xgboost (request "AbsPower" (Some "intel_rapl") (Some "XgboostFitTrainer")) st
              "XgboostFitTrainer" (model "SGDRegressorTrainer" "")
              run.1.1 run.1.2 run.2) as [Hfirst Hload];
    [evaluate | evaluate | evaluate | evaluate | evaluate | discriminate | evaluate
    | discriminate | apply run_eta | ].
  split; [exact Hfirst|].
  destruct Hload as (q & d1 & ev1 & ev3 & item & _ & _ & Hld & Hitem); [evaluate|]. eauto.
Defined.

(** C5 as stated fails in two ways: with the model server disabled nothing is
    removed; with only the archive available, the model that gets installed
    is the archive's, of another trainer than the requested one. *)
Lemma trainer_mismatch_counterexample :
  ¬ trainer_mismatch_as_stated (collab := env false None None) xgboost
      (cached_state (model "SGDRegressorTrainer" ""))
  ∧
  ¬ trainer_mismatch_as_stated
      (collab := env true None (Some (Some (model "SGDRegressorTrainer" "")))) xgboost
      (cached_state (model "SGDRegressorTrainer" "")).
Proof.
  split; intros Hc.
  - set (run := handle_request (collab := env false None None) xgboost
                  (cached_state (model "SGDRegressorTrainer" ""))).
    destruct (Hc (request "AbsPower" (Some "intel_rapl") (Some "XgboostFitTrainer"))
                "XgboostFitTrainer" (model "SGDRegressorTrainer" "")
                run.1.1 run.1.2 run.2) as [Hfirst _];
      [evaluate | evaluate | discriminate | evaluate | discriminate | apply run_eta |].
    destruct Hfirst as [rest Hrest]; [evaluate|]. vm_compute in Hrest. discriminate Hrest.
  - set (run := handle_request
                  (collab := env true None (Some (Some (model "SGDRegressorTrainer" ""))))
                  xgboost (cached_state (model "SGDRegressorTrainer" ""))).
    destruct (Hc (request "AbsPower" (Some "intel_rapl") (Some "XgboostFitTrainer"))
                "XgboostFitTrainer" (model "SGDRegressorTrainer" "")
                run.1.1 run.1.2 run.2) as [_ Hload];
      [evaluate | evaluate | discriminate | evaluate | discriminate | apply run_eta |].
    destruct Hload as (item & Hitem & Htrainer); [evaluate|].
    vm_compute in Hitem. injection Hitem as <-. discriminate Htrainer.
Qed.

(** C2: a model obtained from the archive fails to predict; it stays in the
    cache and its artifact is removed; served from the cache, the same model
    leaves the disk alone. *)
Lemma prediction_failure_witness :
  let failing := model "SGDRegressorTrainer" "feature mismatch" in
  let rq := request "AbsPower" (Some "rapl") (Some "") in
  let run := handle_request (collab := env true None (Some (Some failing))) plain empty_state in
  (∃ model,
     cache_entry (loaded_model run.1.2) "AbsPower" "rapl-sysfs" = Some model ∧
     run.1.1 = Returned (prediction model rq) ∧
     fs run.1.2 !! locate "rapl-sysfs" "AbsPower" = None) ∧
  handle_requests (collab := env true None (Some (Some failing))) (replicate 2 plain)
    (cached_state failing)
  = (Returned (replicate 2 (prediction failing rq)), cached_state failing, []).
Proof.
  intros failing rq run.
  destruct (prediction_failure_removes_obtained_artifact
              (collab := env true None (Some (Some failing))) plain rq empty_state)
    as [Hresolved _]; [evaluate..|].
  destruct (prediction_failure_removes_obtained_artifact
              (collab := env true None (Some (Some failing))) plain rq (cached_state failing))
    as [_ Hcached]; [evaluate..|].
  split.
  - destruct (Hresolved (prediction failing rq) run.1.2 run.2 true)
      as (model & q & d1 & ev1 & before & _ & _ & Hentry & Hy & _);
      [evaluate | evaluate | discriminate |].
    exists model. split; [exact Hentry|]. split; [rewrite <- Hy; evaluate | evaluate].
  - apply Hcached; evaluate.
Defined.

(** C2 as stated fails when the failing model is served from the cache:
    nothing is removed. *)
Lemma prediction_failure_counterexample :
  ¬ prediction_failure_as_stated (collab := env true None None) plain
      (cached_state (model "SGDRegressorTrainer" "feature mismatch")).
Proof.
  intros Hc.
  destruct (Hc (request "AbsPower" (Some "rapl") (Some ""))
              (cached_state (model "SGDRegressorTrainer" "feature mismatch")) []
              (model "SGDRegressorTrainer" "feature mismatch"))
    as [[q Hq] _]; [evaluate | evaluate | evaluate | discriminate | evaluate |].
  by apply elem_of_nil in Hq.
Qed.

(** A request that arrives in two chunks, with white space around it, is
    framed and answered once. *)
Example accepted_two_chunks :
  accepted (collab := env true None None)
    ["  " +:+ substring 0 40 plain; substring 40 200 plain +:+ "  "]
    (cached_state (model "SGDRegressorTrainer" ""))
  = (Returned [answer],
     cached_state (model "SGDRegressorTrainer" ""), []).
Proof.
  rewrite (accepted_sends_one_response (collab := env true None None)
             ["  " +:+ substring 0 40 plain] (substring 40 200 plain +:+ "  ") [] plain).
  - evaluate.
  - repeat constructor; try discriminate; vm_compute; eauto.
  - intros [|k] Hk; [vm_compute; discriminate | cbn in Hk; lia].
  - evaluate.
  - evaluate.
Defined.

End DemoFacts.

(** * Further properties of the handler, the framing, the server and the
    request constructor *)

(** ** [handle_request] *)

Section HandlerFacts.

Context {DataFrame Value Estimator FS : Type}.
Context {collab : @Collaborators DataFrame Value Estimator FS}.

Implicit Types (st : @State DataFrame Value Estimator FS).
Implicit Types (lm : gmap str (gmap str (@Model DataFrame Value Estimator))).
Implicit Types (rq : @PowerRequest DataFrame).
Implicit Types (model item : @Model DataFrame Value Estimator).
Implicit Types (data ot es : str).

Ltac impossible_event H :=
  lazymatch type of H with
  | _ ∨ _ => destruct H as [H|H]; impossible_event H
  | ∃ _, _ => let x := fresh in destruct H as [x H]; impossible_event H
  | _ = _ => discriminate H
  end.

Lemma installed_other lm ot es loaded_item ot' es' :
  (ot', es') ≠ (ot, es) →
  cache_entry (installed lm ot es loaded_item) ot' es' = cache_entry lm ot' es'.
Proof.
  intros Hne. unfold installed. destruct loaded_item as [item|]; [|done].
  destruct (usable (Some item)); [|done]. unfold cache_entry.
  destruct (decide (ot' = ot)) as [->|Hot].
  - rewrite lookup_insert_eq. cbn. rewrite lookup_insert_ne by congruence.
    by destruct (lm !! ot).
  - by rewrite lookup_insert_ne.
Qed.

(** A run leaves every cache entry as it was, or it obtains an artifact, loads
    a usable item from the disk on which the artifact was obtained, installs
    it for the key pair of the request and answers with it. *)
Lemma run_cache_cases data st r st' evs :
  handle_request data st = (r, st', evs) →
  (∀ ot es, cache_entry (loaded_model st') ot es = cache_entry (loaded_model st) ot es) ∨
  (∃ rq q d1 ev1 item,
     let ot := output_type rq in
     let es := normalize_energy_source (energy_source rq) in
     let rq' := set_energy_source rq es in
     let mm := mismatch_trainer rq' ot es (loaded_model st) in
     let p := get_download_output_path es ot in
     let d0 := if mm then removed_if_found (fs st) p else fs st in
     json_loads data = LoadsRequest rq ∧
     obtained rq' p d0 q d1 ev1 ∧
     load_downloaded_model d1 es ot = Some item ∧
     is_Some (estimator item) ∧
     LoadDownloadedModel es ot true ∈ evs ∧
     r = Returned (prediction item rq) ∧
     cache_entry (loaded_model st') ot es = Some item ∧
     ∀ ot' es', (ot', es') ≠ (ot, es) →
       cache_entry (loaded_model st') ot' es' = cache_entry (loaded_model st) ot' es').
Proof.
  intros Hrun.
  apply handle_request_inv in Hrun
    as [(_ & _ & [Hlm | (rq & _ & Hlm)]) | (rq & Hj & Hs & Hot & Hbr & Hserve)].
  { left. intros. by rewrite Hlm. }
  { left. intros. rewrite Hlm. apply cache_entry_init. }
  apply serve_resolution_inv in Hserve
    as [(-> & Hlm & _) | (q & d1 & ev1 & ev3 & Hob & Hlm & -> & Hcase)]; try done.
  { left. intros. rewrite Hlm. apply cache_entry_init. }
  set (ot := output_type rq) in *. set (es := normalize_energy_source (energy_source rq)) in *.
  destruct (usable (load_downloaded_model d1 es ot)) eqn:Hu.
  - right. destruct (load_downloaded_model d1 es ot) as [item|] eqn:Hld; [|done].
    pose proof (installed_usable (init_cache (loaded_model st) ot) ot es _ Hu) as Hin.
    exists rq, q, d1, ev1, item. cbv zeta. fold ot es. do 3 (split; [done|]).
    split; [by apply bool_decide_eq_true in Hu|].
    split; [rewrite !elem_of_app, elem_of_cons; eauto|].
    rewrite Hin in Hcase. destruct Hcase as [(? & _) | (model & [= <-] & -> & _)]; [done|].
    split; [done|]. split; [by rewrite Hlm|].
    intros ot' es' Hne. by rewrite Hlm, installed_other, cache_entry_init.
  - left. intros. rewrite Hlm, installed_unusable by done. apply cache_entry_init.
Qed.

(** X1. What leaves [handle_request], for a request whose fields have the
    types of the wire format and collaborators that return.  An exception
    leaves it only in three situations: [AttributeError] when the JSON text is
    not an object; [KeyError] when the output type is supported but is not a
    member of [ModelOutputType]; [KeyError] when the loader gave no usable
    model and the key pair had no cache entry.  A response that is returned is
    one of the three error responses, with an empty [powers] mapping and a
    non-empty message (the text was rejected by the decoder, the output type
    is not supported, or both resolvers returned no path), or it is the
    prediction of the model that the cache holds for the key pair after the
    run. *)
Theorem handle_request_outcomes data st r st' evs :
  handle_request data st = (r, st', evs) →
  match r with
  | Raised e =>
      (json_loads data = LoadsPlainValue ∧ e = AttributeError) ∨
      (∃ rq,
         json_loads data = LoadsRequest rq ∧
         is_output_type_supported (output_type rq) = true ∧
         let ot := output_type rq in
         let es := normalize_energy_source (energy_source rq) in
         ((ot ∉ ModelOutputType) ∧ e = KeyError ot) ∨
         (LoadDownloadedModel es ot false ∈ evs ∧
          cache_entry (loaded_model st) ot es = None ∧ e = KeyError es))
  | Returned y =>
      (powers y = ∅ ∧ msg y ≠ "" ∧
       ((∃ e, json_loads data = LoadsRaised e) ∨
        (∃ rq, json_loads data = LoadsRequest rq ∧
               is_output_type_supported (output_type rq) = false) ∨
        GetArchivedModel None ∈ evs))
      ∨
      (∃ rq model,
         json_loads data = LoadsRequest rq ∧
         cache_entry (loaded_model st') (output_type rq)
           (normalize_energy_source (energy_source rq)) = Some model ∧
         y = prediction model rq)
  end.
Proof.
  unfold handle_request.
  destruct (json_loads data) as [e|rq|] eqn:Hj.
  { intros [= <- <- <-]. left. split; [done|]. split; [apply append_nonempty|]. eauto. }
  2:{ intros [= <- <- <-]. by left. }
  destruct (is_output_type_supported (output_type rq)) eqn:Hs; cbn [negb].
  2:{ intros [= <- <- <-]. left. split; [done|]. split; [apply append_nonempty|]. eauto. }
  destruct (decide (output_type rq ∈ ModelOutputType)) as [Hot|Hot].
  2:{ rewrite serve_not_member by done. intros [= <- <- <-]. right. exists rq. eauto. }
  set (ot := output_type rq). set (es := normalize_energy_source (energy_source rq)).
  intros Hrun.
  assert (cache_entry (loaded_model st) ot es = None ∨
          mismatch_trainer (set_energy_source rq es) ot es (loaded_model st) = true ∨
          ∃ model, cache_entry (loaded_model st) ot es = Some model ∧
                   mismatch_trainer (set_energy_source rq es) ot es (loaded_model st) = false)
    as [Hbr | [Hbr | (model & Hm & Hmm)]].
  { destruct (cache_entry (loaded_model st) ot es); [|by left].
    destruct (mismatch_trainer _ _ _ _); eauto. }
  3:{ pose proof (cached_request_run data rq st model Hj Hs Hot Hm Hmm) as Hc.
      unfold handle_request in Hc. rewrite Hj, Hs in Hc. cbn [negb] in Hc.
      rewrite Hc in Hrun. injection Hrun as <- <- <-. right. eauto. }
  all: apply serve_resolution_inv in Hrun; [|done|by eauto].
  all: cbv zeta in Hrun; fold ot es in Hrun.
  all: destruct Hrun as [(-> & _ & _ & ->) | (q & d1 & ev1 & ev3 & _ & Hlm & -> & Hcase)].
  all: try (left; split; [done|]; split; [apply append_nonempty|]; right; right;
            rewrite elem_of_app, !elem_of_cons; by eauto 10).
  all: destruct Hcase as [(Hnone & -> & _) | (model & Hm & -> & _)];
    [|right; exists rq, model; by rewrite Hlm].
  all: right; exists rq; do 2 (split; [done|]); right.
  all: destruct (usable (load_downloaded_model d1 es ot)) eqn:Hu;
    [rewrite installed_usable in Hnone by done;
     rewrite Hnone in Hu; discriminate Hu|].
  all: rewrite installed_unusable, cache_entry_init in Hnone by done.
  all: split; [rewrite !elem_of_app, elem_of_cons; eauto|done].
Qed.

(** X2. A run of [handle_request] never removes a model from the cache: every
    key pair keeps the entry it had, except the key pair of the request when a
    usable model was loaded for it; the entry is then the item that the loader
    returned on the disk on which the artifact was obtained in this run. *)
Theorem handle_request_cache_frame data st r st' evs ot es :
  handle_request data st = (r, st', evs) →
  cache_entry (loaded_model st') ot es = cache_entry (loaded_model st) ot es ∨
  ∃ rq q d1 ev1 item,
    json_loads data = LoadsRequest rq ∧
    ot = output_type rq ∧ es = normalize_energy_source (energy_source rq) ∧
    let rq' := set_energy_source rq es in
    let mm := mismatch_trainer rq' ot es (loaded_model st) in
    let p := get_download_output_path es ot in
    let d0 := if mm then removed_if_found (fs st) p else fs st in
    obtained rq' p d0 q d1 ev1 ∧
    load_downloaded_model d1 es ot = Some item ∧
    is_Some (estimator item) ∧
    LoadDownloadedModel es ot true ∈ evs ∧
    cache_entry (loaded_model st') ot es = Some item.
Proof.
  intros Hrun.
  destruct (run_cache_cases _ _ _ _ _ Hrun)
    as [Hsame | (rq & q & d1 & ev1 & item & Hj & Hob & Hld & Hest & Hev & _ & Hnew & Hother)];
    [by left|].
  destruct (decide ((ot, es) = (output_type rq, normalize_energy_source (energy_source rq))))
    as [[= -> ->] | Hne].
  - right. exists rq, q, d1, ev1, item. cbv zeta. eauto 10.
  - left. by apply Hother.
Qed.

(** X3. If every model in the cache has an estimator before a run of
    [handle_request], so it is after the run. *)
Theorem handle_request_keeps_cache_usable data st r st' evs :
  handle_request data st = (r, st', evs) →
  cache_usable (loaded_model st) → cache_usable (loaded_model st').
Proof.
  intros Hrun Husable ot es model Hm.
  destruct (run_cache_cases _ _ _ _ _ Hrun)
    as [Hsame | (rq & q & d1 & ev1 & item & Hj & _ & _ & Hest & Hev & _ & Hnew & Hother)].
  - rewrite Hsame in Hm. by eapply Husable.
  - destruct (decide ((ot, es) = (output_type rq, normalize_energy_source (energy_source rq))))
      as [[= -> ->] | Hne].
    + rewrite Hnew in Hm. by injection Hm as <-.
    + rewrite Hother in Hm by done. by eapply Husable.
Qed.

Lemma cached_requests_run data rq st model (n : nat) :
  json_loads data = LoadsRequest rq →
  is_output_type_supported (output_type rq) = true →
  output_type rq ∈ ModelOutputType →
  cache_entry (loaded_model st) (output_type rq)
    (normalize_energy_source (energy_source rq)) = Some model →
  mismatch_trainer (set_energy_source rq (normalize_energy_source (energy_source rq)))
    (output_type rq) (normalize_energy_source (energy_source rq)) (loaded_model st) = false →
  handle_requests (replicate n data) st
    = (Returned (replicate n (prediction model rq)), st, []).
Proof.
  intros Hj Hs Hot Hm Hmm. induction n as [|n IH]; [done|].
  cbn [replicate handle_requests]. unfold bind at 1.
  rewrite (cached_request_run _ _ _ _ Hj Hs Hot Hm Hmm).
  unfold bind at 1. by rewrite IH.
Qed.

(** X4. When a run loads a usable model, the item that the loader returned,
    on the disk on which the artifact was obtained in this run, is installed
    for the key pair of the request and is the one that answers the request;
    if the trainer does not mismatch afterwards, any number of repetitions of
    the request is answered by it from the cache, without a call to the file
    system. *)
Theorem usable_load_answers_and_is_cached data st r st' evs es ot :
  handle_request data st = (r, st', evs) →
  LoadDownloadedModel es ot true ∈ evs →
  ∃ rq q d1 ev1 item,
    json_loads data = LoadsRequest rq ∧
    ot = output_type rq ∧ es = normalize_energy_source (energy_source rq) ∧
    let rq' := set_energy_source rq es in
    let mm := mismatch_trainer rq' ot es (loaded_model st) in
    let p := get_download_output_path es ot in
    let d0 := if mm then removed_if_found (fs st) p else fs st in
    obtained rq' p d0 q d1 ev1 ∧
    load_downloaded_model d1 es ot = Some item ∧
    is_Some (estimator item) ∧
    cache_entry (loaded_model st') ot es = Some item ∧
    r = Returned (prediction item rq) ∧
    (mismatch_trainer rq' ot es (loaded_model st') = false →
     ∀ n : nat,
       handle_requests (replicate n data) st'
         = (Returned (replicate n (prediction item rq)), st', [])).
Proof.
  intros Hrun Hev.
  apply handle_request_inv in Hrun
    as [(-> & _) | (rq & Hj & Hs & Hot & Hbr & Hserve)]; [by apply elem_of_nil in Hev|].
  apply serve_resolution_inv in Hserve
    as [(-> & Hlm & Hex & ->) | (q & d1 & ev1 & ev3 & Hob & Hlm & -> & Hcase)]; try done.
  - apply failure_events_elem in Hev. impossible_event Hev.
  - eapply resolution_events_elem in Hev; [|done|].
    2:{ destruct Hcase as [(_ & _ & _ & ->) | (model & _ & _ & [(_ & _ & _ & ->) | (_ & _ & ->)])];
        eauto. }
    destruct Hev as [[= -> -> Hu] | Hev]; [|impossible_event Hev].
    symmetry in Hu.
    set (ot := output_type rq) in *.
    set (es := normalize_energy_source (energy_source rq)) in *.
    pose proof (installed_usable (init_cache (loaded_model st) ot) ot es _ Hu) as Hin.
    destruct (load_downloaded_model d1 es ot) as [item|] eqn:Hld; [|done].
    rewrite Hin in Hcase. destruct Hcase as [(? & _) | (model & [= <-] & -> & _)]; [done|].
    exists rq, q, d1, ev1, item. cbv zeta. do 5 (split; [done|]).
    split; [by apply bool_decide_eq_true in Hu|].
    split; [by rewrite Hlm|]. split; [done|].
    intros Hmm n. apply cached_requests_run; try done. by rewrite Hlm.
Qed.

Lemma removal_events_rmtree (d : FS) p path :
  Rmtree path ∈ removal_events d p → path = p ∧ path_exists d p = true.
Proof.
  unfold removal_events. destruct (path_exists d p);
    rewrite !elem_of_cons, elem_of_nil; intros [[=] | H]; [|done].
  by destruct H as [[= ->] | []].
Qed.

(** X6. A run removes a path from the disk only for one of two reasons.  The
    trainer mismatched: the path is then the locator's, and it was found on
    the disk before the run.  Or an artifact was obtained in this run and the
    model that the cache holds for the key pair after the run, which is the
    one that answered, reported a failure message: the path is then the
    non-empty path that was obtained, and it was found on the disk after the
    artifact was obtained. *)
Theorem removal_has_a_cause data st r st' evs path :
  handle_request data st = (r, st', evs) →
  Rmtree path ∈ evs →
  ∃ rq,
    json_loads data = LoadsRequest rq ∧
    let ot := output_type rq in
    let es := normalize_energy_source (energy_source rq) in
    let rq' := set_energy_source rq es in
    let mm := mismatch_trainer rq' ot es (loaded_model st) in
    let p := get_download_output_path es ot in
    let d0 := if mm then removed_if_found (fs st) p else fs st in
    (mm = true ∧ path = p ∧ path_exists (fs st) p = true)
    ∨
    (∃ q d1 ev1 model,
       obtained rq' p d0 q d1 ev1 ∧
       path = q ∧ q ≠ "" ∧ path_exists d1 q = true ∧
       cache_entry (loaded_model st') ot es = Some model ∧
       r = Returned (prediction model rq) ∧
       msg (prediction model rq) ≠ "").
Proof.
  intros Hrun Hev.
  apply handle_request_inv in Hrun
    as [(-> & _) | (rq & Hj & Hs & Hot & Hbr & Hserve)]; [by apply elem_of_nil in Hev|].
  exists rq. split; [done|]. cbv zeta.
  set (ot := output_type rq) in *. set (es := normalize_energy_source (energy_source rq)) in *.
  set (rq' := set_energy_source rq es) in *.
  set (mm := mismatch_trainer rq' ot es (loaded_model st)) in *.
  set (p := get_download_output_path es ot) in *.
  assert (Rmtree path ∈ (if mm then removal_events (fs st) p else []) →
          mm = true ∧ path = p ∧ path_exists (fs st) p = true) as Hev0.
  { destruct mm; [|by intros ?%elem_of_nil].
    intros [-> ?]%removal_events_rmtree. done. }
  apply serve_resolution_inv in Hserve
    as [(-> & Hlm & Hex & ->) | (q & d1 & ev1 & ev3 & Hob & Hlm & -> & Hcase)]; try done.
  - apply elem_of_app in Hev as [Hev | Hev]; [left; by apply Hev0|].
    rewrite !elem_of_cons, elem_of_nil in Hev.
    repeat (destruct Hev as [Hev | Hev]; [discriminate|]). done.
  - rewrite !elem_of_app in Hev. destruct Hev as [Hev | [Hev | [Hev | Hev]]].
    + left. by apply Hev0.
    + eapply obtained_elem in Hev; [|done]. impossible_event Hev.
    + apply list_elem_of_singleton in Hev. discriminate.
    + right.
      destruct Hcase
        as [(_ & _ & _ & ->) | (model & Hm & -> & [(Hmsg & Hq & _ & ->) | (_ & _ & ->)])];
        [by apply elem_of_nil in Hev | | by apply elem_of_nil in Hev].
      apply removal_events_rmtree in Hev as [-> Hfound].
      exists q, d1, ev1, model. rewrite Hlm. by split_and!.
Qed.

Lemma removal_events_kind (d : FS) p e :
  e ∈ removal_events d p → (∃ p' b, e = PathExists p' b) ∨ (∃ p', e = Rmtree p').
Proof. intros [[b ->] | ->]%removal_events_elem; eauto. Qed.

(** X5. The model server is asked right after the locator's path was found
    missing, the archive right after the model server returned no path, and
    the loader right after a path was obtained: the artifact was found on the
    disk, or a resolver gave a path. *)
Theorem resolvers_are_asked_in_order data rq st r st' evs :
  json_loads data = LoadsRequest rq →
  handle_request data st = (r, st', evs) →
  let p := get_download_output_path (normalize_energy_source (energy_source rq))
             (output_type rq) in
  (∀ o, MakeRequest o ∈ evs →
        ∃ before after, evs = before ++ PathExists p false :: MakeRequest o :: after) ∧
  (∀ o, GetArchivedModel o ∈ evs →
        ∃ before after, evs = before ++ MakeRequest None :: GetArchivedModel o :: after) ∧
  (∀ es ot u, LoadDownloadedModel es ot u ∈ evs →
        ∃ before after e,
          evs = before ++ e :: LoadDownloadedModel es ot u :: after ∧
          (e = PathExists p true ∨ ∃ q, e = MakeRequest (Some q) ∨ e = GetArchivedModel (Some q))).
Proof.
  intros Hj Hrun p.
  apply handle_request_inv in Hrun
    as [(-> & _) | (rq2 & Hj2 & Hs & Hot & Hbr & Hserve)].
  { split_and!; intros; by match goal with H : _ ∈ [] |- _ => apply elem_of_nil in H end. }
  rewrite Hj in Hj2. injection Hj2 as <-.
  apply serve_resolution_inv in Hserve
    as [(-> & Hlm & Hex & ->) | (q & d1 & ev1 & ev3 & Hob & Hlm & -> & Hcase)]; try done.
  all: fold p; fold p in Hob || idtac.
  all: set (ev0 := if mismatch_trainer _ _ _ _ then removal_events (fs st) p else []).
  all: assert (∀ e, e ∈ ev0 → (∃ p' b, e = PathExists p' b) ∨ (∃ p', e = Rmtree p')) as Hev0
    by (intros e He; unfold ev0 in He; destruct (mismatch_trainer _ _ _ _);
        [by apply removal_events_kind in He | by apply elem_of_nil in He]).
  - split_and!.
    + intros o [He | He]%elem_of_app; [apply Hev0 in He; impossible_event He|].
      rewrite !elem_of_cons, elem_of_nil in He.
      destruct He as [? | [[= ->] | [? | []]]]; try discriminate.
      exists ev0, [GetArchivedModel None]. done.
    + intros o [He | He]%elem_of_app; [apply Hev0 in He; impossible_event He|].
      rewrite !elem_of_cons, elem_of_nil in He.
      destruct He as [? | [? | [[= ->] | []]]]; try discriminate.
      exists (ev0 ++ [PathExists p false]), []. by rewrite <- app_assoc.
    + intros es ot u [He | He]%elem_of_app; [apply Hev0 in He; impossible_event He|].
      rewrite !elem_of_cons, elem_of_nil in He.
      destruct He as [? | [? | [? | []]]]; discriminate.
  - assert (∀ e, e ∈ ev3 → (∃ p' b, e = PathExists p' b) ∨ (∃ p', e = Rmtree p')) as Hev3.
    { intros e He.
      destruct Hcase as [(_ & _ & _ & ->) | (model & _ & _ & [(_ & _ & _ & ->) | (_ & _ & ->)])];
        [by apply elem_of_nil in He | by apply removal_events_kind in He
        | by apply elem_of_nil in He]. }
    set (load := LoadDownloadedModel _ _ _).
    split_and!.
    + intros o He. rewrite !elem_of_app in He.
      destruct He as [He | [He | [He | He]]];
        [apply Hev0 in He; impossible_event He | | | apply Hev3 in He; impossible_event He].
      * inversion Hob; subst; rewrite !elem_of_cons, elem_of_nil in He.
        -- destruct He as [? | []]; discriminate.
        -- destruct He as [? | [[= ->] | []]]; try discriminate.
           exists ev0, (load :: ev3). done.
        -- destruct He as [? | [[= ->] | [? | []]]]; try discriminate.
           exists ev0, (GetArchivedModel (Some q) :: load :: ev3). done.
      * apply list_elem_of_singleton in He. discriminate.
    + intros o He. rewrite !elem_of_app in He.
      destruct He as [He | [He | [He | He]]];
        [apply Hev0 in He; impossible_event He | | | apply Hev3 in He; impossible_event He].
      * inversion Hob; subst; rewrite !elem_of_cons, elem_of_nil in He.
        -- destruct He as [? | []]; discriminate.
        -- destruct He as [? | [? | []]]; discriminate.
        -- destruct He as [? | [? | [[= ->] | []]]]; try discriminate.
           exists (ev0 ++ [PathExists p false]), (load :: ev3). by rewrite <- !app_assoc.
      * apply list_elem_of_singleton in He. discriminate.
    + intros es ot u He. rewrite !elem_of_app in He.
      destruct He as [He | [He | [He | He]]];
        [apply Hev0 in He; impossible_event He | | | apply Hev3 in He; impossible_event He].
      * exfalso. inversion Hob; subst; rewrite !elem_of_cons, elem_of_nil in He;
          repeat (destruct He as [He | He]; [discriminate|]); done.
      * apply list_elem_of_singleton in He. rewrite He.
        inversion Hob; subst.
        -- exists ev0, ev3, (PathExists p true). split; [done|]. by left.
        -- exists (ev0 ++ [PathExists p false]), ev3, (MakeRequest (Some q)).
           split; [by rewrite <- !app_assoc|]. right. exists q. by left.
        -- exists (ev0 ++ [PathExists p false; MakeRequest None]), ev3,
             (GetArchivedModel (Some q)).
           split; [by rewrite <- !app_assoc|]. right. exists q. by right.
Qed.

End HandlerFacts.

(** ** [EstimatorServer.accepted] *)

Section FramingFacts.

Context {DataFrame Value Estimator FS : Type}.
Context {collab : @Collaborators DataFrame Value Estimator FS}.

Implicit Types (st : @State DataFrame Value Estimator FS).

Lemma never_closed_cons data c chunks :
  never_closed data (c :: chunks) ↔
  Bytes.last_byte (data +:+ Bytes.strip c) ≠ Some Bytes.closing_brace ∧
  never_closed (data +:+ Bytes.strip c) chunks.
Proof.
  unfold never_closed. split.
  - intros Hn. split; [apply (Hn 0); cbn [length]; lia|].
    intros k Hk. apply (Hn (S k)). cbn [length]. lia.
  - intros [H0 Hn] [|k] Hk; [done|]. apply (Hn k). cbn [length] in Hk. lia.
Qed.

Lemma loop_body_inv c data :
  match loop_body c data with
  | Break d =>
      d = data +:+ Bytes.strip c ∧ Bytes.well_formed_chunk c ∧
      Bytes.last_byte d = Some Bytes.closing_brace
  | Continue d =>
      d = data +:+ Bytes.strip c ∧ Bytes.well_formed_chunk c ∧
      Bytes.last_byte d ≠ Some Bytes.closing_brace
  | Crash e =>
      (e = UnicodeDecodeError ∧ Bytes.decode (Bytes.strip c) = None) ∨
      (e = IndexError ∧ Bytes.strip c = "")
  end.
Proof.
  destruct (Bytes.decode (Bytes.strip c)) as [text|] eqn:Hdec.
  2:{ unfold loop_body. rewrite Hdec. by left. }
  destruct (decide (Bytes.strip c = "")) as [Hblank|Hne].
  { unfold loop_body. rewrite Hblank. cbn. by right. }
  assert (Bytes.well_formed_chunk c) as Hwf by (split; eauto).
  rewrite loop_body_well_formed by done. by case_bool_decide.
Qed.

Lemma recv_loop_skip pre rest data :
  Forall Bytes.well_formed_chunk pre →
  never_closed data pre →
  recv_loop (pre ++ rest) data = recv_loop rest (Bytes.accumulate data pre).
Proof.
  revert data. induction pre as [|c pre IH]; intros data Hwf Hn; [done|].
  rewrite Forall_cons in Hwf. destruct Hwf as [Hc Hwf].
  apply never_closed_cons in Hn as [H0 Hn].
  cbn [app]. destruct rest as [|r rest].
  - rewrite app_nil_r. rewrite app_nil_r in IH. cbn [recv_loop].
    rewrite loop_body_well_formed, bool_decide_eq_false_2 by done. by apply IH.
  - cbn [recv_loop]. rewrite loop_body_well_formed, bool_decide_eq_false_2 by done.
    by apply IH.
Qed.

Lemma recv_loop_inv incoming data d rest :
  recv_loop incoming data = (Returned d, rest) →
  ∃ pre c,
    incoming = pre ++ c :: rest ∧
    Forall Bytes.well_formed_chunk (pre ++ [c]) ∧
    never_closed data pre ∧
    d = Bytes.accumulate data (pre ++ [c]) ∧
    Bytes.last_byte d = Some Bytes.closing_brace.
Proof.
  revert data. induction incoming as [|c incoming IH]; intros data; cbn [recv_loop].
  - by rewrite loop_body_closed.
  - pose proof (loop_body_inv c data) as Hb.
    destruct (loop_body c data) as [d'|d'|e]; [| |done].
    + destruct Hb as (-> & Hwf & Hlast). intros [= <- <-].
      exists [], c. split_and!; try done; [by apply Forall_singleton|].
      intros k Hk. cbn in Hk. lia.
    + destruct Hb as (-> & Hwf & Hopen). intros Hrec.
      destruct (IH _ Hrec) as (pre & c' & -> & Hwf' & Hn & -> & Hlast).
      exists (c :: pre), c'. split_and!; try done.
      * by apply Forall_cons.
      * by apply never_closed_cons.
Qed.

(** X8. When [accepted] returns, it has sent exactly one message, the encoded
    response of [handle_request] to the text made of the stripped chunks up to
    the first chunk after which the buffer ends in the closing brace.  The
    white space at the ends of the chunks is not part of that text and the
    chunks that follow are not read. *)
Theorem accepted_inv incoming st out st' evs :
  accepted incoming st = (Returned out, st', evs) →
  ∃ pre c rest text y,
    incoming = pre ++ c :: rest ∧
    Forall Bytes.well_formed_chunk (pre ++ [c]) ∧
    never_closed "" pre ∧
    text = Bytes.accumulate "" (pre ++ [c]) ∧
    Bytes.last_byte text = Some Bytes.closing_brace ∧
    handle_request text st = (Returned y, st', evs) ∧
    out = [Bytes.encode (json_dumps y)].
Proof.
  unfold accepted.
  destruct (recv_loop incoming "") as [[d|e] rest] eqn:Hloop; cbn [fst]; [|done].
  apply recv_loop_inv in Hloop as (pre & c & -> & Hwf & Hn & -> & Hlast).
  destruct (Bytes.decode _) as [text|] eqn:Hdec; [|done].
  apply decode_Some in Hdec as ->.
  unfold bind. destruct (handle_request _ st) as [[[y|e] st1] ev1] eqn:Hrun; [|done].
  unfold ret. rewrite app_nil_r. intros [= <- <- <-].
  exists pre, c, rest, (Bytes.accumulate "" (pre ++ [c])), y. done.
Qed.

(** X9. A chunk whose stripped content is not well-formed UTF-8 by itself, for
    instance because a character is split between two chunks, makes
    [accepted] raise [UnicodeDecodeError]; no request is handled. *)
Theorem accepted_undecodable_chunk pre c rest st :
  Forall Bytes.well_formed_chunk pre →
  never_closed "" pre →
  Bytes.decode (Bytes.strip c) = None →
  accepted (pre ++ c :: rest) st = (Raised UnicodeDecodeError, st, []).
Proof.
  intros Hwf Hn Hdec. unfold accepted. rewrite recv_loop_skip by done.
  cbn [recv_loop]. unfold loop_body. by rewrite Hdec.
Qed.

(** X10. When the peer closes before the buffer ends in a closing brace,
    [accepted] raises [IndexError]; no request is handled. *)
Theorem accepted_unclosed_request incoming st :
  Forall Bytes.well_formed_chunk incoming →
  never_closed "" incoming →
  accepted incoming st = (Raised IndexError, st, []).
Proof.
  intros Hwf Hn. unfold accepted.
  rewrite <- (app_nil_r incoming), recv_loop_skip by done.
  cbn [recv_loop]. by rewrite loop_body_closed.
Qed.

End FramingFacts.

(** ** [start], [clean_socket], [sig_handler] and [run] *)

Section LifecycleFacts.

Context {DataFrame Value Estimator FS : Type}.
Context {collab : @Collaborators DataFrame Value Estimator FS}.
Context {sock : @SocketOS FS}.

Implicit Types (st : @State DataFrame Value Estimator FS).
Implicit Types (d : FS).

(** [clean_socket] succeeds and leaves no socket as soon as unlinking the
    socket succeeds when it is there. *)
Lemma clean_socket_unlinks d :
  (∀ d0, path_exists d0 SERVE_SOCKET = true →
         ∃ d', os_remove d0 SERVE_SOCKET = OsDone d' ∧ path_exists d' SERVE_SOCKET = false) →
  ∃ d', clean_socket d = OsDone d' ∧ path_exists d' SERVE_SOCKET = false.
Proof.
  intros Hunlink. unfold clean_socket. destruct (path_exists d SERVE_SOCKET) eqn:Hex.
  - by apply Hunlink.
  - by exists d.
Qed.

Lemma clean_socket_done `{!SocketLaws} d :
  ∃ d', clean_socket d = OsDone d' ∧ path_exists d' SERVE_SOCKET = false.
Proof. apply clean_socket_unlinks. intros d0. apply remove_found. Qed.

Lemma clean_socket_missing d :
  path_exists d SERVE_SOCKET = false → clean_socket d = OsDone d.
Proof. unfold clean_socket. by intros ->. Qed.

Lemma startup_done `{!SocketLaws} d :
  ∃ d', startup d = OsDone d' ∧ path_exists d' SERVE_SOCKET = true.
Proof.
  unfold startup. destruct (clean_socket_done d) as (d1 & -> & Hgone).
  by apply bind_fresh.
Qed.

Lemma serving_loop_messages arrivals st : messages (serving_loop arrivals st) = [].
Proof.
  revert st. induction arrivals as [|[chunks|] arrivals IH]; intros st; cbn [serving_loop].
  - done.
  - destruct (accepted chunks st) as [[[out|e] st1] evs]; cbn; [apply IH|done].
  - by destruct (sig_handler (fs st)).
Qed.

(** The loop on a sequence of arrivals continues from where it stands after a
    first part of them. *)
Lemma serving_loop_app pre rest st :
  halted (serving_loop pre st) = None →
  serving_loop (pre ++ rest) st =
    let s1 := serving_loop pre st in
    let s2 := serving_loop rest (final s1) in
    mkServed (halted s2) (final s2) (calls s1 ++ calls s2) (sent s1 ++ sent s2) (messages s2).
Proof.
  revert st. induction pre as [|[chunks|] pre IH]; intros st Hw; cbn [app serving_loop].
  - cbn. by destruct (serving_loop rest st).
  - cbn [serving_loop] in Hw.
    destruct (accepted chunks st) as [[[out|e] st1] evs]; cbn in Hw |- *; [|done].
    rewrite IH by done. cbn. by rewrite !app_assoc.
  - cbn [serving_loop] in Hw. by destruct (sig_handler (fs st)).
Qed.

(** The [finally] clauses of [start] and [run] once the loop has halted. *)
Lemma run_halted `{!SocketLaws} arrivals st d h :
  startup (fs st) = OsDone d →
  halted (serving_loop arrivals (mkState (loaded_model st) d)) = Some h →
  let s := serving_loop arrivals (mkState (loaded_model st) d) in
  let r := run arrivals st in
  halted r = Some h ∧
  loaded_model (final r) = loaded_model (final s) ∧
  path_exists (fs (final r)) SERVE_SOCKET = false ∧
  calls r = calls s ∧ sent r = sent s ∧
  ((path_exists (fs (final s)) SERVE_SOCKET = true ∧
    messages r = [Stdout ("close socket" +:+ newline); ClickEcho "estimator exit"])
   ∨
   (path_exists (fs (final s)) SERVE_SOCKET = false ∧
    ∃ m, messages r = [LogError ("failed to close socket: " +:+ m);
                       ClickEcho "estimator exit"])).
Proof.
  intros Hstart Hh s r. unfold r, run. unfold startup in Hstart.
  destruct (clean_socket (fs st)) as [d0|m]; [|done].
  unfold start. cbn [fs loaded_model]. rewrite Hstart.
  pose proof (serving_loop_messages arrivals (mkState (loaded_model st) d)) as Hmsg.
  fold s in Hh, Hmsg |- *. rewrite Hh.
  destruct (path_exists (fs (final s)) SERVE_SOCKET) eqn:Hex.
  - destruct (remove_found _ _ Hex) as (d1 & -> & Hgone). cbn.
    rewrite (clean_socket_missing d1 Hgone). cbn. rewrite Hmsg. split_and!; try done.
    by left.
  - destruct (remove_missing _ _ Hex) as (m & ->). cbn.
    rewrite (clean_socket_missing _ Hex). cbn. rewrite Hmsg. split_and!; try done.
    right. split; [done|]. by exists m.
Qed.

Lemma run_waiting arrivals st d :
  startup (fs st) = OsDone d →
  halted (serving_loop arrivals (mkState (loaded_model st) d)) = None →
  run arrivals st = serving_loop arrivals (mkState (loaded_model st) d).
Proof.
  intros Hstart Hw. unfold run. unfold startup in Hstart.
  destruct (clean_socket (fs st)) as [d0|m]; [|done].
  unfold start. cbn [fs loaded_model]. rewrite Hstart. rewrite Hw. cbv iota. by rewrite Hw.
Qed.

(** X15. Given only that unlinking the socket succeeds and makes it disappear
    when it is there, whenever [run] halts, for whatever reason, the path of
    the socket is gone from the disk: also when [bind] fails, when a request
    has put something at the path, and when the [os.remove] of [start]
    fails. *)
Theorem run_removes_socket arrivals st :
  (∀ d, path_exists d SERVE_SOCKET = true →
        ∃ d', os_remove d SERVE_SOCKET = OsDone d' ∧ path_exists d' SERVE_SOCKET = false) →
  is_Some (halted (run arrivals st)) →
  path_exists (fs (final (run arrivals st))) SERVE_SOCKET = false.
Proof.
  intros Hunlink. unfold run.
  destruct (clean_socket_unlinks (fs st) Hunlink) as (d0 & -> & Hgone0).
  unfold start. cbn [fs loaded_model].
  destruct (socket_bind d0 SERVE_SOCKET) as [d|m].
  - set (s := serving_loop arrivals (mkState (loaded_model st) d)).
    destruct (halted s) as [h|] eqn:Hloop.
    + intros _.
      destruct (os_remove (fs (final s)) SERVE_SOCKET) as [d1|m]; cbn [halted final fs].
      * by destruct (clean_socket_unlinks d1 Hunlink) as (d2 & -> & Hgone).
      * by destruct (clean_socket_unlinks (fs (final s)) Hunlink) as (d2 & -> & Hgone).
    + rewrite Hloop. intros [h Hh]. congruence.
  - cbn [halted final fs]. by rewrite (clean_socket_missing d0 Hgone0).
Qed.

(** X12. [run] starts whatever the disk holds: a socket left at the path is
    removed first, so that [bind] succeeds; the server then waits in [accept],
    with the socket in place and the cache untouched.  [start] alone, on a
    path that exists, fails in [bind] with [OSError]; as [bind] comes before
    the [try], nothing is served and nothing is cleaned up: the path stays. *)
Theorem run_starts_on_stale_socket `{!SocketLaws} st :
  (let s := run [] st in
   halted s = None ∧
   loaded_model (final s) = loaded_model st ∧
   path_exists (fs (final s)) SERVE_SOCKET = true ∧
   sent s = [] ∧ messages s = []) ∧
  (path_exists (fs st) SERVE_SOCKET = true →
   ∃ m, ∀ arrivals, start SERVE_SOCKET arrivals st = mkServed (Some (OSError m)) st [] [] []).
Proof.
  split.
  - destruct (startup_done (fs st)) as (d & Hstart & Hex).
    cbv zeta. by rewrite (run_waiting [] st d Hstart).
  - intros Hex. destruct (bind_taken _ _ Hex) as (m & Hb). exists m.
    intros arrivals. unfold start. by rewrite Hb.
Qed.

(** X13. When [accepted] raises on a connection, [run] halts with that
    exception: the connections before it have been answered, the ones after
    it never are, and the socket is removed. *)
Theorem raising_connection_halts_server `{!SocketLaws} pre chunks rest st d e st' evs :
  startup (fs st) = OsDone d →
  let s := serving_loop pre (mkState (loaded_model st) d) in
  halted s = None →
  accepted chunks (final s) = (Raised e, st', evs) →
  let r := run (pre ++ Connection chunks :: rest) st in
  halted r = Some (Exception e) ∧
  sent r = sent s ∧
  calls r = calls s ++ evs ∧
  loaded_model (final r) = loaded_model st' ∧
  path_exists (fs (final r)) SERVE_SOCKET = false.
Proof.
  intros Hstart s Hw Hacc r.
  assert (serving_loop (pre ++ Connection chunks :: rest) (mkState (loaded_model st) d)
          = mkServed (Some (Exception e)) st' (calls s ++ evs) (sent s) []) as Hloop.
  { rewrite serving_loop_app by done. fold s. cbn [serving_loop]. rewrite Hacc. cbn.
    by rewrite app_nil_r. }
  destruct (run_halted (pre ++ Connection chunks :: rest) st d (Exception e) Hstart)
    as (Hh & Hlm & Hgone & Hcalls & Hsent & _); [by rewrite Hloop|].
  rewrite Hloop in Hlm, Hcalls, Hsent. by fold r in Hh, Hlm, Hgone, Hcalls, Hsent.
Qed.

(** X14. On a SIGTERM that arrives while the loop waits in [accept], [run]
    halts with [SystemExit(1)] and the socket is removed.  As the handler has
    removed it already, the [finally] clause of [start] fails to remove it:
    an error is logged and [close socket] is not written. *)
Theorem sigterm_halts_server `{!SocketLaws} pre rest st d :
  startup (fs st) = OsDone d →
  let s := serving_loop pre (mkState (loaded_model st) d) in
  halted s = None →
  let r := run (pre ++ Sigterm :: rest) st in
  halted r = Some (SystemExit 1) ∧
  sent r = sent s ∧ calls r = calls s ∧
  loaded_model (final r) = loaded_model (final s) ∧
  path_exists (fs (final r)) SERVE_SOCKET = false ∧
  ∃ m, messages r = [LogError ("failed to close socket: " +:+ m); ClickEcho "estimator exit"].
Proof.
  intros Hstart s Hw r.
  destruct (clean_socket_done (fs (final s))) as (d1 & Hclean & Hgone).
  assert (serving_loop (pre ++ Sigterm :: rest) (mkState (loaded_model st) d)
          = mkServed (Some (SystemExit 1)) (mkState (loaded_model (final s)) d1)
              (calls s) (sent s) []) as Hloop.
  { rewrite serving_loop_app by done. fold s. cbn [serving_loop]. unfold sig_handler.
    rewrite Hclean. cbn. by rewrite !app_nil_r. }
  destruct (run_halted (pre ++ Sigterm :: rest) st d (SystemExit 1) Hstart)
    as (Hh & Hlm & Hgone' & Hcalls & Hsent & Hmsg); [by rewrite Hloop|].
  rewrite Hloop in Hlm, Hcalls, Hsent, Hmsg. cbn [final fs] in Hmsg.
  fold r in Hh, Hlm, Hgone', Hcalls, Hsent, Hmsg.
  split_and!; try done.
  destruct Hmsg as [[Hex _] | [_ Hm]]; [congruence|done].
Qed.


Lemma accepted_framed chunks text st :
  framed chunks = Some text →
  accepted chunks st =
    match handle_request text st with
    | (Returned y, st', evs) => (Returned [Bytes.encode (json_dumps y)], st', evs)
    | (Raised e, st', evs) => (Raised e, st', evs)
    end.
Proof.
  unfold framed, accepted. destruct (recv_loop chunks "") as [[data|e] rest]; cbn [fst]; [|done].
  intros ->. unfold bind. destruct (handle_request text st) as [[[y|e] st'] evs]; [|done].
  unfold ret. by rewrite app_nil_r.
Qed.

(** X11. On connections that each frame a text, the serving loop handles the
    texts in order as [handle_requests] does.  While no request raises, it
    keeps waiting, with the state and the calls of [handle_requests] and one
    message sent per connection; the first request that raises halts the loop
    with that exception. *)
Theorem serving_loop_handles_requests conns texts st :
  Forall2 (λ chunks text, framed chunks = Some text) conns texts →
  let s := serving_loop (Connection <$> conns) st in
  match handle_requests texts st with
  | (Returned ys, st', evs) =>
      s = mkServed None st' evs ((λ y, Bytes.encode (json_dumps y)) <$> ys) []
  | (Raised e, st', evs) =>
      halted s = Some (Exception e) ∧ final s = st' ∧ calls s = evs
  end.
Proof.
  intros Hframed. revert st.
  induction Hframed as [|chunks text conns texts Hf _ IH]; intros st; [done|].
  cbn [fmap list_fmap serving_loop handle_requests].
  rewrite (accepted_framed _ _ _ Hf). unfold bind at 1.
  destruct (handle_request text st) as [[[y|e] st1] ev1]; [|done].
  specialize (IH st1). cbv zeta in IH. unfold bind at 1.
  destruct (handle_requests texts st1) as [[[ys|e] st2] ev2].
  - rewrite IH. unfold ret. cbn. by rewrite app_nil_r.
  - destruct IH as (Hh & Hfin & Hcalls). cbn. by rewrite Hh, Hfin, Hcalls.
Qed.

End LifecycleFacts.

(** ** [PowerRequest.__init__] *)

Section RequestFacts.

Context {V : Type}.
Variable DataFrame_new : list (list V) → list str → str + Pandas.Frame V.

Implicit Types (df : Pandas.Frame V) (name feature : str) (col : list V).

Lemma assign_nrows df name values :
  Pandas.nrows (Pandas.assign df name values) = Pandas.nrows df.
Proof. unfold Pandas.assign. by case_bool_decide. Qed.

Lemma assign_same df name values col :
  (name, col) ∈ Pandas.columns (Pandas.assign df name values) → col = values.
Proof.
  unfold Pandas.assign. case_bool_decide as Hin; cbn.
  - intros ([n c] & Heq & _)%list_elem_of_fmap. cbn in Heq.
    case_bool_decide; cbn in *; congruence.
  - intros [Hold | Hnew%list_elem_of_singleton]%elem_of_app; [|congruence].
    destruct Hin. apply list_elem_of_fmap. by exists (name, col).
Qed.

Lemma assign_named df name values :
  name ∈ Pandas.names (Pandas.assign df name values).
Proof.
  unfold Pandas.names, Pandas.assign. case_bool_decide as Hin; cbn.
  - rewrite <- list_fmap_compose.
    erewrite list_fmap_ext; [exact Hin|]. intros i [n c] _. cbn. by case_bool_decide.
  - rewrite fmap_app. apply elem_of_app. right. by apply list_elem_of_singleton.
Qed.

Lemma assign_names_mono df name values name' :
  name' ∈ Pandas.names df → name' ∈ Pandas.names (Pandas.assign df name values).
Proof.
  unfold Pandas.names, Pandas.assign. intros Hin'. case_bool_decide as Hin; cbn.
  - rewrite <- list_fmap_compose.
    erewrite list_fmap_ext; [exact Hin'|]. intros i [n c] _. cbn. by case_bool_decide.
  - rewrite fmap_app. apply elem_of_app. by left.
Qed.

Lemma assign_filter df name values :
  filter (λ c : str * list V, c.1 ≠ name) (Pandas.columns (Pandas.assign df name values))
  = filter (λ c : str * list V, c.1 ≠ name) (Pandas.columns df).
Proof.
  unfold Pandas.assign. case_bool_decide as Hin; cbn.
  - clear Hin. induction (Pandas.columns df) as [|[n c] l IH]; [done|].
    cbn [fmap list_fmap]. case_bool_decide as Hn; cbn in Hn.
    + subst n. rewrite !filter_cons_False by (intros Hc; by apply Hc). apply IH.
    + rewrite !filter_cons. cbn. by rewrite IH.
  - rewrite filter_app, filter_cons_False by (intros Hc; by apply Hc).
    by rewrite filter_nil, app_nil_r.
Qed.

Lemma last_value_missing name system_features (system_values : list V) :
  name ∉ system_features → last_value name system_features system_values = None.
Proof.
  revert system_values. induction system_features as [|f fs IH]; intros [|v vs] Hn; try done.
  apply not_elem_of_cons in Hn as [Hne Hn]. cbn [last_value].
  rewrite IH by done. by rewrite bool_decide_eq_false_2.
Qed.

Lemma broadcast_features_spec size system_features system_values df df' :
  broadcast_features size system_features system_values df = inr df' →
  length system_features ≤ length system_values ∧
  Pandas.nrows df' = Pandas.nrows df ∧
  (∀ name, name ∈ Pandas.names df → name ∈ Pandas.names df') ∧
  (∀ name, name ∈ system_features →
     name ∈ Pandas.names df' ∧
     ∃ v, last_value name system_features system_values = Some v ∧
          ∀ col, (name, col) ∈ Pandas.columns df' → col = replicate size v) ∧
  filter (λ c, c.1 ∉ system_features) (Pandas.columns df')
  = filter (λ c : str * list V, c.1 ∉ system_features) (Pandas.columns df).
Proof.
  revert system_values df. induction system_features as [|f fs IH]; intros sv df.
  - intros [= <-]. split_and!; try done; [cbn; lia|]. intros name Hin. by apply elem_of_nil in Hin.
  - destruct sv as [|v vs]; [done|]. cbn [broadcast_features]. intros Hrec.
    destruct (IH _ _ Hrec) as (Hlen & Hrows & Hmono & Hfeat & Hfilter).
    split_and!.
    + cbn. lia.
    + by rewrite Hrows, assign_nrows.
    + intros name Hin. by apply Hmono, assign_names_mono.
    + intros name Hin. destruct (decide (name ∈ fs)) as [Hfs|Hfs].
      * destruct (Hfeat name Hfs) as (Hnamed & w & Hlast & Hcols).
        split; [done|]. exists w. cbn [last_value]. by rewrite Hlast.
      * apply elem_of_cons in Hin as [->|Hin]; [|done].
        split; [apply Hmono, assign_named|].
        exists v. cbn [last_value]. rewrite last_value_missing by done.
        rewrite bool_decide_eq_true_2 by done. split; [done|].
        intros col Hcol.
        assert ((f, col) ∈ filter (λ c : str * list V, c.1 ∉ fs) (Pandas.columns df'))
          as Hcol' by (by apply list_elem_of_filter).
        rewrite Hfilter in Hcol'. apply list_elem_of_filter in Hcol' as [_ Hcol'].
        by apply assign_same in Hcol'.
    + transitivity (filter (λ c : str * list V, c.1 ≠ f)
                      (filter (λ c : str * list V, c.1 ∉ fs) (Pandas.columns df'))).
      { rewrite list_filter_filter. apply list_filter_iff. intros [n c]; cbn.
        by rewrite not_elem_of_cons. }
      rewrite Hfilter, list_filter_filter.
      rewrite (list_filter_iff _ (λ c : str * list V, (c.1 ∉ fs) ∧ (c.1 ≠ f)))
        by (intros [n c]; cbn; tauto).
      rewrite <- list_filter_filter, assign_filter, list_filter_filter.
      apply list_filter_iff. intros [n c]; cbn. rewrite not_elem_of_cons. tauto.
Qed.

Lemma assign_well_shaped df name values :
  length values = Pandas.nrows df → well_shaped df →
  well_shaped (Pandas.assign df name values).
Proof.
  unfold well_shaped, Pandas.assign. intros Hlen Hdf. case_bool_decide; cbn.
  - apply Forall_fmap. eapply Forall_impl; [exact Hdf|]. intros [n c] Hc. cbn in *.
    by case_bool_decide.
  - apply Forall_app. split; [done|]. by apply Forall_singleton.
Qed.

Lemma broadcast_features_well_shaped system_features system_values df df' :
  broadcast_features (Pandas.nrows df) system_features system_values df = inr df' →
  well_shaped df → well_shaped df'.
Proof.
  revert system_values df. induction system_features as [|f fs IH]; intros sv df.
  - by intros [= <-].
  - destruct sv as [|v vs]; [done|]. cbn [broadcast_features]. intros Hrec Hdf.
    rewrite <- (assign_nrows df f (replicate (Pandas.nrows df) v)) in Hrec at 1.
    apply (IH _ _ Hrec). apply assign_well_shaped; [|done]. by rewrite length_replicate.
Qed.

Lemma broadcast_features_short size system_features system_values df :
  length system_values < length system_features →
  broadcast_features size system_features system_values df = inl SystemValuesIndexError.
Proof.
  revert system_values df. induction system_features as [|f fs IH]; intros [|v vs] df Hlen;
    cbn in Hlen; try lia; [done|].
  cbn [broadcast_features]. apply IH. lia.
Qed.

Lemma broadcast_features_surplus size system_features system_values surplus df :
  length system_features ≤ length system_values →
  broadcast_features size system_features (system_values ++ surplus) df
  = broadcast_features size system_features system_values df.
Proof.
  revert system_values df. induction system_features as [|f fs IH]; intros [|v vs] df Hlen;
    cbn in Hlen; try lia; try done.
  cbn [app broadcast_features]. apply IH. lia.
Qed.

Lemma broadcast_features_enough size system_features system_values df :
  length system_features ≤ length system_values →
  ∃ df', broadcast_features size system_features system_values df = inr df'.
Proof.
  revert system_values df. induction system_features as [|f fs IH]; intros [|v vs] df Hlen;
    cbn in Hlen; try lia; cbn [broadcast_features]; eauto.
  apply IH. lia.
Qed.

(** X16. [PowerRequest.__init__] raises [IndexError] exactly when the frame is
    built and there are fewer system values than system features; system
    values beyond the features are ignored. *)
Theorem init_needs_a_value_per_feature metrics values output_type source
    system_features system_values trainer_name flt :
  (PowerRequest_init DataFrame_new metrics values output_type source
     system_features system_values trainer_name flt = inl SystemValuesIndexError
   ↔ (∃ df, DataFrame_new values metrics = inr df) ∧
     length system_values < length system_features) ∧
  (length system_features ≤ length system_values →
   ∀ surplus,
     PowerRequest_init DataFrame_new metrics values output_type source
       system_features (system_values ++ surplus) trainer_name flt
     = PowerRequest_init DataFrame_new metrics values output_type source
         system_features system_values trainer_name flt).
Proof.
  unfold PowerRequest_init. split.
  - destruct (DataFrame_new values metrics) as [m|df] eqn:Hnew.
    { split; [done|]. by intros [[df [=]] _]. }
    split.
    + intros Hinit. split; [by eauto|].
      destruct (decide (length system_values < length system_features)) as [|Hge]; [done|].
      destruct (broadcast_features_enough (Pandas.nrows df) system_features system_values df)
        as [df' Hok]; [lia|]. by rewrite Hok in Hinit.
    + intros [_ Hlen]. by rewrite broadcast_features_short.
  - intros Hlen surplus. destruct (DataFrame_new values metrics) as [m|df]; [done|].
    by rewrite broadcast_features_surplus.
Qed.

(** X17. When [PowerRequest.__init__] returns, the frame has the rows that
    pandas built, and every system feature labels a column that holds, in
    every row, the value given with the last occurrence of the feature.  A
    frame whose columns all have one value per row stays so. *)
Theorem init_broadcasts_system_features metrics values output_type source
    system_features system_values trainer_name flt rq :
  PowerRequest_init DataFrame_new metrics values output_type source
    system_features system_values trainer_name flt = inr rq →
  ∃ df,
    DataFrame_new values metrics = inr df ∧
    Pandas.nrows (datapoint rq) = Pandas.nrows df ∧
    (well_shaped df → well_shaped (datapoint rq)) ∧
    ∀ name, name ∈ system_features →
      name ∈ Pandas.names (datapoint rq) ∧
      ∃ v, last_value name system_features system_values = Some v ∧
           ∀ col, (name, col) ∈ Pandas.columns (datapoint rq) →
                  col = replicate (Pandas.nrows df) v.
Proof.
  unfold PowerRequest_init.
  destruct (DataFrame_new values metrics) as [m|df]; [done|].
  destruct (broadcast_features _ _ _ _) as [e|df'] eqn:Hb; [done|]. intros [= <-].
  exists df. cbn [datapoint]. split; [done|].
  destruct (broadcast_features_spec _ _ _ _ _ Hb) as (_ & Hrows & _ & Hfeat & _).
  split; [done|]. split; [by apply (broadcast_features_well_shaped _ _ _ _ Hb)|done].
Qed.

(** X18. When [PowerRequest.__init__] returns, the columns that are not named
    as system features are the ones that pandas built, in the same order, and
    every label of the built frame is still a label. *)
Theorem init_keeps_other_columns metrics values output_type source
    system_features system_values trainer_name flt rq :
  PowerRequest_init DataFrame_new metrics values output_type source
    system_features system_values trainer_name flt = inr rq →
  ∃ df,
    DataFrame_new values metrics = inr df ∧
    (∀ name, name ∈ Pandas.names df → name ∈ Pandas.names (datapoint rq)) ∧
    filter (λ c, c.1 ∉ system_features) (Pandas.columns (datapoint rq))
    = filter (λ c : str * list V, c.1 ∉ system_features) (Pandas.columns df).
Proof.
  unfold PowerRequest_init.
  destruct (DataFrame_new values metrics) as [m|df]; [done|].
  destruct (broadcast_features _ _ _ _) as [e|df'] eqn:Hb; [done|]. intros [= <-].
  exists df. cbn [datapoint]. split; [done|].
  by destruct (broadcast_features_spec _ _ _ _ _ Hb) as (_ & _ & Hmono & _ & Hfilter).
Qed.

End RequestFacts.

(** * The further properties at work in the concrete environment *)

Module DemoMore.

Import Demo DemoServer.

(** Decides a closed goal by evaluation. *)
Ltac compute_it :=
  first [ reflexivity
        | vm_compute; reflexivity
        | apply (bool_decide_unpack _); vm_compute; exact I ].

(** A run is the triple of its components. *)
Lemma triple_eta {A B C} (x : A * B * C) : x = (x.1.1, x.1.2, x.2).
Proof. by destruct x as [[? ?] ?]. Qed.

(** The cache of [cached_state] holds one model. *)
Lemma cached_state_usable m :
  is_Some (estimator m) → cache_usable (loaded_model (cached_state m)).
Proof.
  intros Hm ot es model Hc. unfold cache_entry in Hc. cbn in Hc.
  apply bind_Some in Hc as (inner & Hin & Hc).
  apply lookup_singleton_Some in Hin as [_ <-].
  by apply lookup_singleton_Some in Hc as [_ <-].
Qed.

(** The socket of [socket_os] obeys the laws. *)
Lemma demo_socket_laws enabled remote archive :
  SocketLaws (collab := env enabled remote archive) (sock := socket_os).
Proof.
  split; cbn; intros d p Hex.
  - apply bool_decide_eq_true in Hex. exists (delete p d).
    rewrite bool_decide_eq_true_2 by done. split; [done|].
    apply bool_decide_eq_false. rewrite lookup_delete_eq. by intros [? ?].
  - exists "No such file or directory". by rewrite Hex.
  - exists (<[p := None]> d). rewrite Hex. split; [done|].
    apply bool_decide_eq_true. rewrite lookup_insert_eq. eauto.
  - exists "Address already in use". by rewrite Hex.
Qed.

(** X1 on a request whose artifact cannot be loaded, with an empty cache:
    [KeyError] leaves [handle_request]; and on a request that no resolver can
    serve: an error response is returned. *)
Lemma handle_request_outcomes_witness :
  (let run := handle_request (collab := env true None (Some None)) plain empty_state in
   run.1.1 = Raised (KeyError "rapl-sysfs") ∧
   LoadDownloadedModel "rapl-sysfs" "AbsPower" false ∈ run.2) ∧
  (let run := handle_request (collab := env true None None) plain empty_state in
   ∃ y, run.1.1 = Returned y ∧ powers y = ∅ ∧ msg y ≠ "").
Proof.
  split; intros run.
  - pose proof (handle_request_outcomes (collab := env true None (Some None)) plain empty_state
                  run.1.1 run.1.2 run.2 (triple_eta run)) as Hout.
    assert (run.1.1 = Raised (KeyError "rapl-sysfs")) as Hr by compute_it.
    rewrite Hr in Hout. split; [done|].
    destruct Hout as [[Hj _] | (rq & Hj & _ & Hcase)]; [vm_compute in Hj; discriminate Hj|].
    vm_compute in Hj. injection Hj as <-. cbv zeta in Hcase.
    destruct Hcase as [[Hot _] | (Hev & _)]; [|exact Hev].
    exfalso. apply Hot. compute_it.
  - pose proof (handle_request_outcomes (collab := env true None None) plain empty_state
                  run.1.1 run.1.2 run.2 (triple_eta run)) as Hout.
    assert (∃ y, run.1.1 = Returned y) as [y Hr] by (vm_compute; eauto).
    rewrite Hr in Hout. exists y. split; [done|].
    destruct Hout as [(Hp & Hm & _) | (rq & model & Hj & Hc & _)]; [done|].
    vm_compute in Hj. injection Hj as <-. vm_compute in Hc. discriminate Hc.
Defined.

(** X2: the archive's model is installed for AbsPower, and it is what the
    loader returned; DynPower has no entry before and none after. *)
Lemma handle_request_cache_frame_witness :
  let run := handle_request (collab := env true None (Some (Some (model "SGDRegressorTrainer" ""))))
               plain empty_state in
  cache_entry (loaded_model run.1.2) "DynPower" "rapl-sysfs" = None ∧
  ∃ d1 item,
    load_downloaded_model
      (Collaborators := env true None (Some (Some (model "SGDRegressorTrainer" ""))))
      d1 "rapl-sysfs" "AbsPower" = Some item ∧
    cache_entry (loaded_model run.1.2) "AbsPower" "rapl-sysfs" = Some item.
Proof.
  intros run. split.
  - destruct (handle_request_cache_frame
                (collab := env true None (Some (Some (model "SGDRegressorTrainer" ""))))
                plain empty_state run.1.1 run.1.2 run.2 "DynPower" "rapl-sysfs"
                (triple_eta run)) as [Hsame | (rq & q & d1 & ev1 & item & Hj & Hot & _)].
    + rewrite Hsame. compute_it.
    + vm_compute in Hj. injection Hj as <-. discriminate Hot.
  - destruct (handle_request_cache_frame
                (collab := env true None (Some (Some (model "SGDRegressorTrainer" ""))))
                plain empty_state run.1.1 run.1.2 run.2 "AbsPower" "rapl-sysfs"
                (triple_eta run))
      as [Hsame | (rq & q & d1 & ev1 & item & _ & _ & _ & _ & Hld & _ & _ & Hnew)].
    + vm_compute in Hsame. discriminate Hsame.
    + eauto.
Defined.

(** X3: a model of another trainer replaces the cached one. *)
Lemma handle_request_keeps_cache_usable_witness :
  cache_usable
    (loaded_model
       (handle_request (collab := env true (Some (Some (model "XgboostFitTrainer" ""))) None)
          xgboost (cached_state (model "SGDRegressorTrainer" ""))).1.2).
Proof.
  set (run := handle_request _ _).
  apply (handle_request_keeps_cache_usable
           (collab := env true (Some (Some (model "XgboostFitTrainer" ""))) None)
           xgboost (cached_state (model "SGDRegressorTrainer" "")) run.1.1 run.1.2 run.2
           (triple_eta run)).
  apply cached_state_usable. cbn. eauto.
Defined.

(** X4: the archive's model, as the loader returned it, answers the first
    request and two more. *)
Lemma usable_load_witness :
  let run := handle_request (collab := env true None (Some (Some (model "SGDRegressorTrainer" ""))))
               plain empty_state in
  ∃ d1 item,
    load_downloaded_model
      (Collaborators := env true None (Some (Some (model "SGDRegressorTrainer" ""))))
      d1 "rapl-sysfs" "AbsPower" = Some item ∧
    cache_entry (loaded_model run.1.2) "AbsPower" "rapl-sysfs" = Some item ∧
    run.1.1 = Returned (prediction item (request "AbsPower" (Some "rapl") (Some ""))) ∧
    handle_requests (collab := env true None (Some (Some (model "SGDRegressorTrainer" ""))))
      (replicate 2 plain) run.1.2
    = (Returned (replicate 2 (prediction item (request "AbsPower" (Some "rapl") (Some "")))),
       run.1.2, []).
Proof.
  intros run.
  destruct (usable_load_answers_and_is_cached
              (collab := env true None (Some (Some (model "SGDRegressorTrainer" ""))))
              plain empty_state run.1.1 run.1.2 run.2 "rapl-sysfs" "AbsPower"
              (triple_eta run))
    as (rq & q & d1 & ev1 & item & Hj & _ & _ & _ & Hld & _ & Hentry & Hr & Hrepeat);
    [compute_it|].
  vm_compute in Hj. injection Hj as <-.
  exists d1, item. split; [exact Hld|]. split; [exact Hentry|]. split; [exact Hr|].
  apply Hrepeat. compute_it.
Defined.

(** X5: the archive is asked right after the model server had nothing. *)
Lemma resolvers_order_witness :
  let run := handle_request (collab := env true None (Some (Some (model "SGDRegressorTrainer" ""))))
               plain empty_state in
  ∃ before after,
    run.2 = before ++ MakeRequest None
              :: GetArchivedModel (Some (locate "rapl-sysfs" "AbsPower")) :: after.
Proof.
  intros run.
  destruct (resolvers_are_asked_in_order
              (collab := env true None (Some (Some (model "SGDRegressorTrainer" ""))))
              plain (request "AbsPower" (Some "rapl") (Some "")) empty_state
              run.1.1 run.1.2 run.2) as (_ & Harchive & _);
    [compute_it | apply triple_eta |].
  apply Harchive. compute_it.
Defined.

(** X6: the artifact is removed because the model that the archive delivered,
    and that the cache then holds, failed to predict. *)
Lemma removal_cause_witness :
  let failing := model "SGDRegressorTrainer" "feature mismatch" in
  let rq := request "AbsPower" (Some "rapl") (Some "") in
  let run := handle_request (collab := env true None (Some (Some failing))) plain empty_state in
  ∃ model,
    cache_entry (loaded_model run.1.2) "AbsPower" "rapl-sysfs" = Some model ∧
    run.1.1 = Returned (prediction model rq) ∧ msg (prediction model rq) ≠ "".
Proof.
  intros failing rq run.
  destruct (removal_has_a_cause (collab := env true None (Some (Some failing)))
              plain empty_state run.1.1 run.1.2 run.2 (locate "rapl-sysfs" "AbsPower")
              (triple_eta run)) as (rq2 & Hj & Hcause); [compute_it|].
  vm_compute in Hj. injection Hj as <-. cbv zeta in Hcause.
  destruct Hcause as [(Hmm & _) | (q & d1 & ev1 & model & _ & _ & _ & _ & Hentry & Hr & Hmsg)].
  - vm_compute in Hmm. discriminate Hmm.
  - exists model. split; [exact Hentry|]. split; [exact Hr|exact Hmsg].
Defined.

(** X8 on a request that arrives in two chunks. *)
Lemma accepted_inv_witness :
  ∃ text y,
    Bytes.last_byte text = Some Bytes.closing_brace ∧
    handle_request (collab := env true None None) text
      (cached_state (model "SGDRegressorTrainer" ""))
    = (Returned y, cached_state (model "SGDRegressorTrainer" ""), []).
Proof.
  destruct (accepted_inv (collab := env true None None)
              ["  " +:+ substring 0 40 plain; substring 40 200 plain +:+ "  "]
              (cached_state (model "SGDRegressorTrainer" ""))
              [answer]
              (cached_state (model "SGDRegressorTrainer" "")) [])
    as (pre & c & rest & text & y & _ & _ & _ & _ & Hlast & Hrun & _); [compute_it|].
  eauto.
Defined.

(** X9: the two octets of a character arrive in different chunks. *)
Lemma accepted_undecodable_chunk_witness :
  accepted (collab := env true None None)
    ["{" +:+ quoted ("caf" +:+ e_acute_lead); e_acute_trail +:+ quote +:+ ": 1}"] empty_state
  = (Raised UnicodeDecodeError, empty_state, []).
Proof.
  apply (accepted_undecodable_chunk (collab := env true None None) []).
  - constructor.
  - intros k Hk. cbn in Hk. lia.
  - compute_it.
Defined.

(** X10: the peer closes in the middle of the request. *)
Lemma accepted_unclosed_request_witness :
  accepted (collab := env true None None) ["{" +:+ quoted "metrics"; ": ["] empty_state
  = (Raised IndexError, empty_state, []).
Proof.
  apply (accepted_unclosed_request (collab := env true None None)).
  - repeat constructor; try discriminate; vm_compute; eauto.
  - intros [|[|k]] Hk; [vm_compute; discriminate.. | cbn in Hk; lia].
Defined.


(** X11 on two connections. *)
Lemma serving_loop_handles_requests_witness :
  let st := cached_state (model "SGDRegressorTrainer" "") in
  serving_loop (collab := env true None None) (sock := socket_os)
    [Connection [plain]; Connection ["  " +:+ substring 0 40 plain; substring 40 200 plain]] st
  = mkServed None st [] [answer; answer] [].
Proof.
  intros st.
  pose proof (serving_loop_handles_requests (collab := env true None None) (sock := socket_os)
                [[plain]; ["  " +:+ substring 0 40 plain; substring 40 200 plain]]
                [plain; plain] st) as Hloop.
  assert (handle_requests (collab := env true None None) [plain; plain] st
          = (Returned (replicate 2 (mkResponse {["package" := 42%Z]} "")), st, [])) as Hrun
    by compute_it.
  cbv zeta in Hloop. rewrite Hrun in Hloop. apply Hloop.
  repeat constructor; compute_it.
Defined.

(** X12 on a disk that holds a socket left behind. *)
Lemma run_starts_on_stale_socket_witness :
  (let s := run (collab := env true None None) (sock := socket_os) [] stale_state in
   halted s = None ∧
   path_exists (Collaborators := env true None None) (fs (final s)) "/tmp/estimator.sock"
     = true) ∧
  ∃ m, start (collab := env true None None) (sock := socket_os) "/tmp/estimator.sock"
         [Connection [plain]] stale_state
       = mkServed (Some (OSError m)) stale_state [] [] [].
Proof.
  destruct (run_starts_on_stale_socket (collab := env true None None) (sock := socket_os)
              (H := demo_socket_laws true None None) stale_state) as [Hrun Hstart].
  split.
  - cbv zeta in Hrun. destruct Hrun as (Hw & _ & Hex & _). by split.
  - destruct Hstart as [m Hm]; [compute_it|]. exists m. apply Hm.
Defined.

(** X13: the second of three connections sends a blank chunk. *)
Lemma raising_connection_witness :
  let st := cached_state (model "SGDRegressorTrainer" "") in
  let r := run (collab := env true None None) (sock := socket_os)
             ([Connection [plain]] ++ Connection ["  "; plain] :: [Connection [plain]]) st in
  halted r = Some (Exception IndexError) ∧ sent r = [answer].
Proof.
  intros st r.
  destruct (raising_connection_halts_server (collab := env true None None) (sock := socket_os)
              (H := demo_socket_laws true None None)
              [Connection [plain]] ["  "; plain] [Connection [plain]] st
              (<["/tmp/estimator.sock" := None]> (fs st)) IndexError
              (mkState (loaded_model st) (<["/tmp/estimator.sock" := None]> (fs st))) [])
    as (Hh & Hsent & _); [compute_it..|].
  split; [exact Hh|]. unfold r. rewrite Hsent. compute_it.
Defined.

(** X14: SIGTERM arrives after the first connection. *)
Lemma sigterm_witness :
  let st := cached_state (model "SGDRegressorTrainer" "") in
  let r := run (collab := env true None None) (sock := socket_os)
             ([Connection [plain]] ++ Sigterm :: [Connection [plain]]) st in
  halted r = Some (SystemExit 1) ∧ sent r = [answer] ∧
  ∃ m, messages r = [LogError ("failed to close socket: " +:+ m); ClickEcho "estimator exit"].
Proof.
  intros st r.
  destruct (sigterm_halts_server (collab := env true None None) (sock := socket_os)
              (H := demo_socket_laws true None None)
              [Connection [plain]] [Connection [plain]] st
              (<["/tmp/estimator.sock" := None]> (fs st)))
    as (Hh & Hsent & _ & _ & _ & Hmsg); [compute_it..|].
  split; [exact Hh|]. split; [|exact Hmsg]. unfold r. rewrite Hsent. compute_it.
Defined.

(** A path that was deleted is not on the disk. *)
Lemma demo_unlink (d : Disk) p : ¬ is_Some (delete p d !! p).
Proof. intros [x Hx]. by rewrite lookup_delete_eq in Hx. Qed.

(** X15 where [bind] is refused, on a disk that holds a socket left behind:
    [run] halts with the [OSError] of [bind] and the socket is gone. *)
Lemma run_removes_socket_witness :
  let r := run (collab := env true None None) (sock := refusing_os)
             [Connection [plain]] stale_state in
  halted r = Some (OSError "Permission denied") ∧
  path_exists (Collaborators := env true None None) (fs (final r)) "/tmp/estimator.sock"
    = false.
Proof.
  intros r. split; [compute_it|].
  apply (run_removes_socket (collab := env true None None) (sock := refusing_os)).
  - intros d Hex. cbn in Hex |- *. apply bool_decide_eq_true in Hex.
    exists (delete "/tmp/estimator.sock" d).
    rewrite bool_decide_eq_true_2 by done. split; [done|].
    apply bool_decide_eq_false. apply demo_unlink.
  - vm_compute. eauto.
Defined.

(** X16: one value for two features, and three values for one feature. *)
Lemma init_needs_a_value_per_feature_witness :
  PowerRequest_init frame_of ["cpu_time"; "bpf_cpu_time"] [[10; 20]; [30; 40]]%Z
    "AbsPower" (Some "rapl") ["cpu_architecture"; "cores"] [7%Z] (Some "") ""
  = inl SystemValuesIndexError
  ∧
  PowerRequest_init frame_of ["cpu_time"; "bpf_cpu_time"] [[10; 20]; [30; 40]]%Z
    "AbsPower" (Some "rapl") ["cpu_architecture"] ([7] ++ [8; 9])%Z (Some "") ""
  = PowerRequest_init frame_of ["cpu_time"; "bpf_cpu_time"] [[10; 20]; [30; 40]]%Z
      "AbsPower" (Some "rapl") ["cpu_architecture"] [7%Z] (Some "") "".
Proof.
  split.
  - apply (init_needs_a_value_per_feature frame_of). split; [|cbn; lia].
    eexists. compute_it.
  - apply (init_needs_a_value_per_feature frame_of). cbn. lia.
Defined.

(** X17: the feature cores is given twice and is also a metric. *)
Lemma init_broadcasts_system_features_witness :
  ∃ rq,
    PowerRequest_init frame_of ["cpu_time"; "cores"] [[10; 20]; [30; 40]]%Z
      "AbsPower" (Some "rapl") ["cores"; "cpu_architecture"; "cores"] [7; 8; 9]%Z (Some "") ""
    = inr rq ∧
    ∀ col, ("cores", col) ∈ Pandas.columns (datapoint rq) → col = [9; 9]%Z.
Proof.
  destruct (PowerRequest_init frame_of ["cpu_time"; "cores"] [[10; 20]; [30; 40]]%Z
              "AbsPower" (Some "rapl") ["cores"; "cpu_architecture"; "cores"] [7; 8; 9]%Z
              (Some "") "") as [e|rq] eqn:Hinit; [vm_compute in Hinit; discriminate Hinit|].
  exists rq. split; [reflexivity|]. intros col Hcol.
  destruct (init_broadcasts_system_features frame_of _ _ _ _ _ _ _ _ rq Hinit)
    as (df & Hdf & _ & _ & Hfeat).
  destruct (Hfeat "cores") as (_ & v & Hv & Hcols); [compute_it|].
  vm_compute in Hdf. injection Hdf as <-. vm_compute in Hv. injection Hv as <-.
  by apply Hcols.
Defined.

(** X18: the metric cpu_time is kept, the metric cores is overwritten. *)
Lemma init_keeps_other_columns_witness :
  ∃ rq,
    PowerRequest_init frame_of ["cpu_time"; "cores"] [[10; 20]; [30; 40]]%Z
      "AbsPower" (Some "rapl") ["cores"; "cpu_architecture"] [7; 8]%Z (Some "") ""
    = inr rq ∧
    filter (λ c, c.1 ∉ ["cores"; "cpu_architecture"]) (Pandas.columns (datapoint rq))
    = [("cpu_time", [10; 30]%Z)].
Proof.
  destruct (PowerRequest_init frame_of ["cpu_time"; "cores"] [[10; 20]; [30; 40]]%Z
              "AbsPower" (Some "rapl") ["cores"; "cpu_architecture"] [7; 8]%Z
              (Some "") "") as [e|rq] eqn:Hinit; [vm_compute in Hinit; discriminate Hinit|].
  exists rq. split; [reflexivity|].
  destruct (init_keeps_other_columns frame_of _ _ _ _ _ _ _ _ rq Hinit)
    as (df & Hdf & _ & Hfilter).
  rewrite Hfilter. vm_compute in Hdf. injection Hdf as <-. compute_it.
Defined.

End DemoMore.
